(** * ResAtlas: the date-time utilities, the reservation query and the
      SQLite schemas, embedded and checked against their specification.

    The repository has two kinds of code:
    - JavaScript (the Electron GUI): [isValidDateTime], [isQuarterHour],
      [isDateTimeInRange] (utils/general), the exception classes
      (exceptions) and [getReservations];
    - SQL DDL for SQLite: the original schema (with the TableSet layer) and
      the refined schema (with ReservationAtTable).

    JavaScript functions become functions into a completion type (normal
    return or thrown error); the built-in [Date] is modelled after the
    ECMAScript time functions, with the host time zone as a parameter.  The
    DDL becomes constraint checkers and INSERT operations over lists of
    rows. *)

From Stdlib Require Import ZArith List String Ascii Bool Lia QArith DecimalString.
Import ListNotations.

Local Open Scope string_scope.
Local Open Scope Z_scope.

(* ================================================================== *)
(** * Text patterns shared by the two halves *)
(* ================================================================== *)

Module Shape.

(** One position of a fixed-length pattern: a decimal digit ([\d] in the
    regular expression, [[0-9]] in a GLOB) or one given character. *)
Inductive atom : Type :=
| digit
| lit (c : ascii).

Definition is_digit (c : ascii) : bool :=
  ((48 <=? nat_of_ascii c) && (nat_of_ascii c <=? 57))%nat.

Definition atom_match (a : atom) (c : ascii) : bool :=
  match a with
  | digit => is_digit c
  | lit k => Ascii.eqb c k
  end.

(** Anchored match ([^ ... $]): every position has to fit and nothing may
    be left over on either side. *)
Fixpoint matches (p : list atom) (s : string) : bool :=
  match p, s with
  | [], EmptyString => true
  | a :: p', String c s' => atom_match a c && matches p' s'
  | _, _ => false
  end.

Definition digits (n : nat) : list atom := repeat digit n.

End Shape.

(* ================================================================== *)
(** * The JavaScript side *)
(* ================================================================== *)

Module JS.

(** ** Errors and completions *)

(** exceptions.js declares [InvalidDateError] and [APIError]; the other
    three are built-in classes that the code or its documentation names
    ([TypeError] is what a method call on [undefined] and a failed
    [fetch] raise, [SyntaxError] what [response.json()] raises). *)
Inductive error : Type :=
| InvalidDateError (message : string)
| APIError (message : string)
| RangeError (message : string)
| TypeError (message : string)
| SyntaxError (message : string).

Inductive completion (A : Type) : Type :=
| Return (a : A)
| Throw (e : error).
Arguments Return {A} a.
Arguments Throw {A} e.

Definition bind {A B} (c : completion A) (k : A -> completion B) : completion B :=
  match c with
  | Return a => k a
  | Throw e => Throw e
  end.

Notation "x <- c ;; k" := (bind c (fun x => k))
  (at level 61, c at next level, right associativity).

(** ** Numbers *)

(** A JavaScript number, as far as this code meets them: an integer (every
    value here is far below 2^53, so the double is exact) or NaN.  A
    variable bound to [undefined] by a destructuring is also read as
    [NaN]: in every use the code makes of such a variable ([<], [>], [%],
    [!=], [===] against a number) [undefined] and [NaN] give the same
    answer. *)
Inductive number : Type :=
| Num (z : Z)
| NaN.

Definition lt (a b : number) : bool :=
  match a, b with Num x, Num y => x <? y | _, _ => false end.
Definition gt (a b : number) : bool := lt b a.
Definition le (a b : number) : bool :=
  match a, b with Num x, Num y => x <=? y | _, _ => false end.
Definition ge (a b : number) : bool := le b a.
Definition strict_eq (a b : number) : bool :=
  match a, b with Num x, Num y => x =? y | _, _ => false end.
Definition not_eq (a b : number) : bool := negb (strict_eq a b).
(** [a % b]: the remainder takes the sign of the dividend. *)
Definition rem (a b : number) : number :=
  match a, b with
  | Num x, Num y => if y =? 0 then NaN else Num (Z.rem x y)
  | _, _ => NaN
  end.
Definition plus (a b : number) : number :=
  match a, b with Num x, Num y => Num (x + y) | _, _ => NaN end.
Definition isNaN (a : number) : bool :=
  match a with NaN => true | Num _ => false end.

(** ** Strings *)

Definition digit_value (c : ascii) : Z := Z.of_nat (nat_of_ascii c) - 48.

Fixpoint decimal (acc : Z) (s : string) : number :=
  match s with
  | EmptyString => Num acc
  | String c s' =>
      if Shape.is_digit c then decimal (10 * acc + digit_value c) s' else NaN
  end.

(** [Number(s)] on a string.  Exact on strings of decimal digits (and on
    the empty string, which is 0), the only ones that reach it behind the
    regular expression; a string with any other character is mapped to
    [NaN], which leaves out the signed, fractional, exponent and hex
    literals that the real conversion also reads. *)
Definition Number (s : string) : number := decimal 0 s.

(** [s.split(sep)] for a one-character separator. *)
Fixpoint split (sep : ascii) (s : string) : list string :=
  match s with
  | EmptyString => [EmptyString]
  | String c s' =>
      if Ascii.eqb c sep then EmptyString :: split sep s'
      else match split sep s' with
           | [] => [String c EmptyString]
           | w :: ws => String c w :: ws
           end
  end.

(** [sep] does not occur in [s]. *)
Fixpoint lacks (sep : ascii) (s : string) : bool :=
  match s with
  | EmptyString => true
  | String c s' => negb (Ascii.eqb c sep) && lacks sep s'
  end.

(** A destructured array element: [None] is [undefined]. *)
Definition element {A} (l : list A) (i : nat) : option A := nth_error l i.

Definition element_num (l : list number) (i : nat) : number :=
  match nth_error l i with Some n => n | None => NaN end.

(** [x.split(sep)] where [x] may be [undefined]. *)
Definition method_split (x : option string) (sep : ascii) : completion (list string) :=
  match x with
  | Some s => Return (split sep s)
  | None => Throw (TypeError "Cannot read properties of undefined (reading 'split')")
  end.

(** [${x}] inside a template literal. *)
Definition interpolate (x : option string) : string :=
  match x with Some s => s | None => "undefined" end.

Definition string_of_Z (z : Z) : string := NilZero.string_of_int (Z.to_int z).

(** ** Time values (ECMA-262, "Time Values and Time Range" onwards) *)

Definition msPerSecond : Z := 1000.
Definition msPerMinute : Z := 60000.
Definition msPerHour : Z := 3600000.
Definition msPerDay : Z := 86400000.

Definition Day (t : Z) : Z := t / msPerDay.
Definition TimeWithinDay (t : Z) : Z := t mod msPerDay.

Definition DaysInYear (y : Z) : Z :=
  if negb (y mod 4 =? 0) then 365
  else if negb (y mod 100 =? 0) then 366
  else if negb (y mod 400 =? 0) then 365
  else 366.

Definition DayFromYear (y : Z) : Z :=
  365 * (y - 1970) + (y - 1969) / 4 - (y - 1901) / 100 + (y - 1601) / 400.

Definition TimeFromYear (y : Z) : Z := msPerDay * DayFromYear y.

(** "The largest integer y (closest to positive infinity) such that
    TimeFromYear(y) <= t": found from the estimate 1970 + day/365.2425,
    which is never off by more than one year ([YearFromTime_spec]). *)
Definition YearFromTime (t : Z) : Z :=
  let d := Day t in
  let y := 1970 + (400 * d) / 146097 in
  if d <? DayFromYear y then y - 1
  else if DayFromYear (y + 1) <=? d then y + 1
  else y.

Definition InLeapYear (t : Z) : Z :=
  if DaysInYear (YearFromTime t) =? 366 then 1 else 0.

Definition DayWithinYear (t : Z) : Z := Day t - DayFromYear (YearFromTime t).

Definition MonthFromTime (t : Z) : Z :=
  let d := DayWithinYear t in
  let l := InLeapYear t in
  if d <? 31 then 0
  else if d <? 59 + l then 1
  else if d <? 90 + l then 2
  else if d <? 120 + l then 3
  else if d <? 151 + l then 4
  else if d <? 181 + l then 5
  else if d <? 212 + l then 6
  else if d <? 243 + l then 7
  else if d <? 273 + l then 8
  else if d <? 304 + l then 9
  else if d <? 334 + l then 10
  else 11.

Definition DateFromTime (t : Z) : Z :=
  let d := DayWithinYear t in
  let l := InLeapYear t in
  match MonthFromTime t with
  | 0 => d + 1
  | 1 => d - 30
  | 2 => d - 58 - l
  | 3 => d - 89 - l
  | 4 => d - 119 - l
  | 5 => d - 150 - l
  | 6 => d - 180 - l
  | 7 => d - 211 - l
  | 8 => d - 242 - l
  | 9 => d - 272 - l
  | 10 => d - 303 - l
  | _ => d - 333 - l
  end.

Definition HourFromTime (t : Z) : Z := (t / msPerHour) mod 24.
Definition MinFromTime (t : Z) : Z := (t / msPerMinute) mod 60.
Definition SecFromTime (t : Z) : Z := (t / msPerSecond) mod 60.

Definition MakeTime (hour min sec ms : Z) : Z :=
  hour * msPerHour + min * msPerMinute + sec * msPerSecond + ms.

(** Number of days from 1 January to the first day of month [mn] (0-11),
    [l] being 1 in a leap year. *)
Definition DayFromMonth (mn l : Z) : Z :=
  match mn with
  | 0 => 0
  | 1 => 31
  | 2 => 59 + l
  | 3 => 90 + l
  | 4 => 120 + l
  | 5 => 151 + l
  | 6 => 181 + l
  | 7 => 212 + l
  | 8 => 243 + l
  | 9 => 273 + l
  | 10 => 304 + l
  | _ => 334 + l
  end.

(** MakeDay: the day number of the first of month [mn] of year [ym], plus
    [date - 1]. *)
Definition MakeDay (year month date : Z) : Z :=
  let ym := year + month / 12 in
  let mn := month mod 12 in
  let l := if DaysInYear ym =? 366 then 1 else 0 in
  DayFromYear ym + DayFromMonth mn l + date - 1.

Definition MakeDate (day time : Z) : Z := day * msPerDay + time.

Definition TimeClip (t : Z) : number :=
  if 8640000000000000 <? Z.abs t then NaN else Num t.

(** ** The civil calendar, for the statements *)

Definition leap_year (y : Z) : bool :=
  ((y mod 4 =? 0) && negb (y mod 100 =? 0)) || (y mod 400 =? 0).

(** Length of month [m] (1-12) of year [y] in the Gregorian calendar. *)
Definition days_in_month (y m : Z) : Z :=
  match m with
  | 1 | 3 | 5 | 7 | 8 | 10 | 12 => 31
  | 4 | 6 | 9 | 11 => 30
  | 2 => if leap_year y then 29 else 28
  | _ => 0
  end.

(** The six fields of a date-time string [YYYY-MM-DDTHH:MM:SS]. *)
Record fields : Type := mkFields {
  f_year : Z; f_month : Z; f_day : Z;
  f_hour : Z; f_minute : Z; f_second : Z
}.

(** The local time value (ms since the epoch, read on the wall clock)
    that the fields denote. *)
Definition local_time_of (f : fields) : Z :=
  MakeDate (MakeDay (f_year f) (f_month f - 1) (f_day f))
           (MakeTime (f_hour f) (f_minute f) (f_second f) 0).

(** [/^\d{4}-\d{2}-\d{2}T\d{2}:\d{2}:\d{2}$/] *)
Definition datetime_regex : list Shape.atom :=
  Shape.digits 4 ++ [Shape.lit "-"] ++ Shape.digits 2 ++ [Shape.lit "-"] ++
  Shape.digits 2 ++ [Shape.lit "T"] ++ Shape.digits 2 ++ [Shape.lit ":"] ++
  Shape.digits 2 ++ [Shape.lit ":"] ++ Shape.digits 2.

Definition regex_test (r : list Shape.atom) (str : string) : bool :=
  Shape.matches r str.

(** The fields of a string of the form YYYY-MM-DDTHH:MM:SS, read by
    position; [None] on every other string ([read_fields_regex]). *)
Definition read_fields (s : string) : option fields :=
  if Shape.matches datetime_regex s then
    match Number (substring 0 4 s), Number (substring 5 2 s),
          Number (substring 8 2 s), Number (substring 11 2 s),
          Number (substring 14 2 s), Number (substring 17 2 s) with
    | Num y, Num mo, Num d, Num h, Num mi, Num se =>
        Some (mkFields y mo d h mi se)
    | _, _, _, _, _, _ => None
    end
  else None.

(** Fields that name a real calendar day and a real time of day. *)
Definition in_calendar (f : fields) : bool :=
  (1 <=? f_month f) && (f_month f <=? 12) &&
  (1 <=? f_day f) && (f_day f <=? days_in_month (f_year f) (f_month f)) &&
  (f_hour f <=? 23) && (f_minute f <=? 59) && (f_second f <=? 59).

(** A valid date-time as the specification words it, on the fields of the
    string: month 1-12, hour 0-23, minute a quarter hour, second 0, and a
    real calendar date. *)
Definition well_formed (f : fields) : Prop :=
  1 <= f_month f <= 12 /\
  0 <= f_hour f <= 23 /\
  In (f_minute f) [0; 15; 30; 45] /\
  f_second f = 0 /\
  1 <= f_day f <= days_in_month (f_year f) (f_month f).

Section Host.

(** The host's time zone: [LocalTZA t true] is the offset of local time
    from UTC, in ms, at the UTC instant [t]; [LocalTZA t false] is the
    offset used to read the local time value [t] (before a skipped hour
    and inside a repeated one, the offset in force before the clock
    change). *)
Variable LocalTZA : Z -> bool -> Z.

(** What [Date.parse] answers on every string outside the date-time form
    with in-calendar fields: the other ISO forms, an engine's legacy
    formats, and date-time strings with an illegal field (ECMA-262 asks
    for NaN there, V8 rolls a day up to 31 over into the next month:
    "Feb 30 -> Mar 2" in the source's comment).  Left open, so that what
    is proved holds for every engine. *)
Variable parse_other : string -> number.

Definition LocalTime (t : Z) : Z := t + LocalTZA t true.
Definition UTC (t : Z) : Z := t - LocalTZA t false.

Definition Date_parse (s : string) : number :=
  match read_fields s with
  | Some f => if in_calendar f then Num (UTC (local_time_of f)) else parse_other s
  | None => parse_other s
  end.

(** A [Date] object is its time value. *)
Definition Date : Type := number.

(** [new Date(s)] *)
Definition new_Date (s : string) : Date :=
  match Date_parse s with
  | Num tv => TimeClip tv
  | NaN => NaN
  end.

Definition getter (f : Z -> Z) (d : Date) : number :=
  match d with
  | Num tv => Num (f (LocalTime tv))
  | NaN => NaN
  end.

Definition getFullYear : Date -> number := getter YearFromTime.
Definition getMonth : Date -> number := getter MonthFromTime.
Definition getDate : Date -> number := getter DateFromTime.
Definition getHours : Date -> number := getter HourFromTime.
Definition getMinutes : Date -> number := getter MinFromTime.
Definition getSeconds : Date -> number := getter SecFromTime.

(** The wall-clock reading [t] exists on the host: converted to an
    instant and back, it is the same reading, to the second.  A reading
    inside an hour that a clock change skips comes back moved past the
    gap. *)
Definition local_time_exists (t : Z) : Prop :=
  t <= LocalTime (UTC t) < t + msPerSecond.

(** ** utils/general *)

Definition isQuarterHour (minutes : number) : bool :=
  strict_eq (rem minutes (Num 15)) (Num 0).

Definition isValidDateTime (str : string) : completion bool :=
  if negb (regex_test datetime_regex str) then Return false else
  let parts := split "T" str in
  let datePart := element parts 0 in
  let timePart := element parts 1 in
  ymd <- method_split datePart "-" ;;
  let ymd := map Number ymd in
  let year := element_num ymd 0 in
  let month := element_num ymd 1 in
  let day := element_num ymd 2 in
  hms <- method_split timePart ":" ;;
  let hms := map Number hms in
  let hour := element_num hms 0 in
  let minute := element_num hms 1 in
  let second := element_num hms 2 in
  if lt month (Num 1) || gt month (Num 12) then Return false else
  if lt hour (Num 0) || gt hour (Num 23) then Return false else
  if lt minute (Num 0) || gt minute (Num 59) || negb (isQuarterHour minute)
  then Return false else
  if not_eq second (Num 0) then Return false else
  let date := new_Date (interpolate datePart ++ "T" ++ interpolate timePart) in
  Return (strict_eq (getFullYear date) year &&
          strict_eq (plus (getMonth date) (Num 1)) month &&
          strict_eq (getDate date) day &&
          strict_eq (getHours date) hour &&
          strict_eq (getMinutes date) minute &&
          strict_eq (getSeconds date) second).

(** What [isValidDateTime] computes behind the regular expression, on
    the fields read off the string and the [Date] built from it
    ([isValidDateTime_unfold]). *)
Definition field_checks (f : fields) (date : Date) : bool :=
  negb ((f_month f <? 1) || (12 <? f_month f))
  && negb ((f_hour f <? 0) || (23 <? f_hour f))
  && negb ((f_minute f <? 0) || (59 <? f_minute f)
           || negb (Z.rem (f_minute f) 15 =? 0))
  && (f_second f =? 0)
  && (strict_eq (getFullYear date) (Num (f_year f)) &&
      strict_eq (plus (getMonth date) (Num 1)) (Num (f_month f)) &&
      strict_eq (getDate date) (Num (f_day f)) &&
      strict_eq (getHours date) (Num (f_hour f)) &&
      strict_eq (getMinutes date) (Num (f_minute f)) &&
      strict_eq (getSeconds date) (Num (f_second f))).

Definition isDateTimeInRange (dateTimeStr rangeStartStr rangeEndStr : string)
  : completion bool :=
  let dateTime := new_Date dateTimeStr in
  let rangeStart := new_Date rangeStartStr in
  let rangeEnd := new_Date rangeEndStr in
  if isNaN dateTime || isNaN rangeStart || isNaN rangeEnd
  then Throw (InvalidDateError "Invalid datetime string provided")
  else Return (ge dateTime rangeStart && le dateTime rangeEnd).

(** ** The reservation query *)

(** What the awaited [fetch] hands back. *)
Record Response : Type := mkResponse {
  ok : bool;
  status : Z;
  json : completion string   (* [await response.json()] *)
}.

(** The network: the settled result of [await fetch(url)], a thrown
    [TypeError] when the data source cannot be reached. *)
Variable fetch : string -> completion Response.

(** [apiUri], imported from globalConstants. *)
Variable apiUri : string.

(** What the function does to the outside world, in order. *)
Inductive event : Type :=
| Fetch (url : string)
| ConsoleLog (data : string)
| ConsoleError (message : string) (e : error).

(** A computation that leaves a trace and completes. *)
Definition io (A : Type) : Type := (list event * completion A)%type.

Definition io_ret {A} (a : A) : io A := ([], Return a).
Definition io_throw {A} (e : error) : io A := ([], Throw e).
Definition io_emit (ev : event) : io unit := ([ev], Return tt).
Definition io_lift {A} (c : completion A) : io A := ([], c).
Definition io_bind {A B} (c : io A) (k : A -> io B) : io B :=
  match c with
  | (tr, Return a) => let (tr', r) := k a in ((tr ++ tr')%list, r)
  | (tr, Throw e) => (tr, Throw e)
  end.
(** [try { c } catch (error) { handler error }] *)
Definition io_catch {A} (c : io A) (handler : error -> io A) : io A :=
  match c with
  | (tr, Throw e) => let (tr', r) := handler e in ((tr ++ tr')%list, r)
  | done => done
  end.

Notation "x <~ c ;; k" := (io_bind c (fun x => k))
  (at level 61, c at next level, right associativity).

Definition getReservations (startDateTime endDateTime : string) : io unit :=
  startOk <~ io_lift (isValidDateTime startDateTime) ;;
  bad <~ (if negb startOk then io_ret true
          else endOk <~ io_lift (isValidDateTime endDateTime) ;;
               io_ret (negb endOk)) ;;
  if (bad : bool) then
    io_throw (InvalidDateError
      ("One of the given dates is not valid. Given [startDateTime = "
       ++ startDateTime ++ "], [endDateTime = " ++ endDateTime ++ "]."))
  else
    io_catch
      (let url := (apiUri ++ "/get-reservations?startDateTime=" ++ startDateTime
                   ++ "&endDateTime=" ++ endDateTime)%string in
       _ <~ io_emit (Fetch url) ;;
       response <~ io_lift (fetch url) ;;
       if negb (ok response) then
         io_throw (APIError
           ("Error retrieving reservations (getReservations()) - Status: "
            ++ string_of_Z (status response)))
       else
         data <~ io_lift (json response) ;;
         io_emit (ConsoleLog data))
      (fun error =>
         _ <~ io_emit (ConsoleError "Unexpected error in getReservations()" error) ;;
         io_throw error).

End Host.

(** ** Hosts used in the examples *)

(** A host whose clock is UTC. *)
Definition utc : Z -> bool -> Z := fun _ _ => 0.

(** The 2024 rule of America/New_York: UTC-5, and UTC-4 from
    2024-03-10T07:00:00Z to 2024-11-03T06:00:00Z.  Read on the wall clock,
    daylight time runs from 03:00 on 10 March (02:00-03:00 is skipped and
    read with the offset before the change) to 02:00 on 3 November
    (01:00-02:00 happens twice and is read with the offset before the
    change). *)
Definition new_york_2024 : Z -> bool -> Z := fun t isUTC =>
  if isUTC then
    if (1710054000000 <=? t) && (t <? 1730613600000)
    then -4 * msPerHour else -5 * msPerHour
  else
    if (1710039600000 <=? t) && (t <? 1730599200000)
    then -4 * msPerHour else -5 * msPerHour.

(** An engine that answers NaN to every string outside the date-time
    form with in-calendar fields. *)
Definition strict_parse : string -> number := fun _ => NaN.

(** A data source that answers every request with an empty list. *)
Definition reachable : string -> completion Response :=
  fun _ => Return (mkResponse true 200 (Return "[]")).

(** A data source that cannot be reached: [fetch] rejects with a
    [TypeError]. *)
Definition unreachable : string -> completion Response :=
  fun _ => Throw (TypeError "Failed to fetch").

End JS.

(* ================================================================== *)
(** * The theme switch of the GUI *)
(* ================================================================== *)

Module Theme.

(** ** String-keyed stores: [localStorage] and the attributes of an element *)

Definition store : Type := list (string * string).

(** [getItem(k)] / [getAttribute(k)]: [None] is [null]. *)
Fixpoint store_get (s : store) (k : string) : option string :=
  match s with
  | [] => None
  | (k', v) :: s' => if String.eqb k' k then Some v else store_get s' k
  end.

(** [setItem(k, v)] / [setAttribute(k, v)]: the value of an existing key is
    replaced where it stands, a new key goes to the end. *)
Fixpoint store_set (s : store) (k v : string) : store :=
  match s with
  | [] => [(k, v)]
  | (k', v') :: s' =>
      if String.eqb k' k then (k, v) :: s' else (k', v') :: store_set s' k v
  end.

(** [removeItem(k)] / [removeAttribute(k)] *)
Fixpoint store_remove (s : store) (k : string) : store :=
  match s with
  | [] => []
  | (k', v') :: s' =>
      if String.eqb k' k then store_remove s' k else (k', v') :: store_remove s' k
  end.

(** A listener registered on the media query [(prefers-color-scheme: dark)].
    Theme.js registers one kind only, the arrow function of [initTheme]. *)
Inductive listener : Type :=
| ReapplyWhenAuto.

(** What Theme.js reads and writes: [localStorage], the attributes of
    [document.documentElement], and the "change" listeners of the media
    query, in the order they were added. *)
Record page : Type := mkPage {
  localStorage : store;
  root : store;
  change_listeners : list listener
}.

Definition THEME_KEY : string := "ui.theme".

Definition removeAttribute (name : string) (p : page) : page :=
  mkPage (localStorage p) (store_remove (root p) name) (change_listeners p).

Definition setAttribute (name value : string) (p : page) : page :=
  mkPage (localStorage p) (store_set (root p) name value) (change_listeners p).

Definition applyThemeMode (mode : string) (p : page) : page :=
  let p := removeAttribute "data-theme" p in
  if String.eqb mode "light" then setAttribute "data-theme" "light" p
  else if String.eqb mode "dark" then setAttribute "data-theme" "dark" p
  else p.

Definition setTheme (mode : string) (p : page) : page :=
  let p := mkPage (store_set (localStorage p) THEME_KEY mode) (root p) (change_listeners p) in
  applyThemeMode mode p.

(** [localStorage.getItem(THEME_KEY) || "auto"]: [null] and the empty
    string are falsy. *)
Definition getTheme (p : page) : string :=
  match store_get (localStorage p) THEME_KEY with
  | None => "auto"
  | Some v => if String.eqb v "" then "auto" else v
  end.

Definition addEventListener (l : listener) (p : page) : page :=
  mkPage (localStorage p) (root p) (change_listeners p ++ [l])%list.

Definition initTheme (p : page) : page :=
  let p := applyThemeMode (getTheme p) p in
  addEventListener ReapplyWhenAuto p.

(** The body of a listener. *)
Definition run (l : listener) (p : page) : page :=
  match l with
  | ReapplyWhenAuto =>
      if String.eqb (getTheme p) "auto" then applyThemeMode "auto" p else p
  end.

(** The OS colour scheme changes: the media query fires "change" and the
    listeners run in the order they were added. *)
Definition dispatch_change (p : page) : page :=
  fold_left (fun q l => run l q) (change_listeners p) p.

Definition toggleTheme (p : page) : page :=
  let cur := getTheme p in
  let next := if String.eqb cur "dark" then "light" else "dark" in
  setTheme next p.

(** ** What the statements talk about *)

(** The [data-theme] attribute that goes with a theme. *)
Definition attribute_of (mode : string) : option string :=
  if String.eqb mode "light" then Some "light"
  else if String.eqb mode "dark" then Some "dark"
  else None.

(** The root element shows the stored theme. *)
Definition in_step (p : page) : Prop :=
  store_get (root p) "data-theme" = attribute_of (getTheme p).

End Theme.

(* ================================================================== *)
(** * The App component: the theme button *)
(* ================================================================== *)

Module App.
Import Theme.

(** The component with the theme button: the page it runs in and its
    [theme] state variable. *)
Record component : Type := mkComponent {
  page_of : page;
  theme : string
}.

(** [useState(getTheme())], then the effect that runs on mount. *)
Definition mount (p : page) : component :=
  let c := mkComponent p (getTheme p) in
  mkComponent (page_of c) (getTheme (page_of c)).

(** [handleToggle] *)
Definition handleToggle (c : component) : component :=
  let p := toggleTheme (page_of c) in
  mkComponent p (getTheme p).

Inductive icon : Type :=
| MdDarkMode
| MdLightMode.

(** [theme == 'dark' ? <MdDarkMode/> : <MdLightMode/>] *)
Definition theme_button (c : component) : icon :=
  if String.eqb (theme c) "dark" then MdDarkMode else MdLightMode.

End App.

(* ================================================================== *)
(** * The SQLite side *)
(* ================================================================== *)

Module Sqlite.

(** ** Outcome of an INSERT *)

(** The constraint an INSERT can fail on (SQLITE_CONSTRAINT_CHECK, ...).
    NOT NULL is carried by the types: a column declared NOT NULL has no
    [option].  Rows come with their key: an INSERT that leaves an INTEGER
    PRIMARY KEY to SQLite (a fresh rowid) is the INSERT of the row with
    that rowid. *)
Inductive violation : Type :=
| CHECK
| PRIMARYKEY
| UNIQUE
| FOREIGNKEY.

Inductive result (A : Type) : Type :=
| Ok (a : A)
| Failed (v : violation).
Arguments Ok {A} a.
Arguments Failed {A} v.

Definition and_then {A B} (r : result A) (k : A -> result B) : result B :=
  match r with
  | Ok a => k a
  | Failed v => Failed v
  end.

(** [require b v k]: go on with [k] when the test [b] passes, fail with
    [v] otherwise. *)
Definition require {A} (b : bool) (v : violation) (k : result A) : result A :=
  if b then k else Failed v.

(** ** GLOB *)

(** A GLOB pattern, read once: [*], [?], a bracketed set (possibly
    inverted by [^]) of characters and ranges, or a plain character.  A
    set that is never closed matches nothing. *)
Inductive item : Type :=
| Star
| One
| OneOf (invert : bool) (members : list (ascii * ascii))
| Char (c : ascii)
| Unclosed.

Inductive mode : Type :=
| Top
| InSet (invert : bool) (prior : option ascii) (members : list (ascii * ascii)).

Fixpoint parse (m : mode) (p : string) : list item :=
  match m, p with
  | Top, EmptyString => []
  | Top, String c p1 =>
      if Ascii.eqb c "*" then Star :: parse Top p1
      else if Ascii.eqb c "?" then One :: parse Top p1
      else if Ascii.eqb c "[" then
        match p1 with
        | String c1 p2 =>
            if Ascii.eqb c1 "^" then
              match p2 with
              | String c2 p3 =>
                  if Ascii.eqb c2 "]" then parse (InSet true None [(c2, c2)]) p3
                  else parse (InSet true None []) p2
              | EmptyString => [Unclosed]
              end
            else if Ascii.eqb c1 "]" then parse (InSet false None [(c1, c1)]) p2
            else parse (InSet false None []) p1
        | EmptyString => [Unclosed]
        end
      else Char c :: parse Top p1
  | InSet _ _ _, EmptyString => [Unclosed]
  | InSet inv prior members, String c p1 =>
      if Ascii.eqb c "]" then OneOf inv members :: parse Top p1
      else
        let single := parse (InSet inv (Some c) ((c, c) :: members)) p1 in
        if Ascii.eqb c "-" then
          match prior, p1 with
          | Some lo, String hi p2 =>
              if Ascii.eqb hi "]" then single
              else parse (InSet inv None ((lo, hi) :: members)) p2
          | _, _ => single
          end
        else single
  end.

Definition in_range (c : ascii) (r : ascii * ascii) : bool :=
  ((nat_of_ascii (fst r) <=? nat_of_ascii c) &&
   (nat_of_ascii c <=? nat_of_ascii (snd r)))%nat.

Fixpoint glob_items (items : list item) (s : string) : bool :=
  match items with
  | [] => match s with EmptyString => true | _ => false end
  | Star :: rest =>
      (fix any_suffix (s : string) : bool :=
         glob_items rest s ||
         match s with
         | EmptyString => false
         | String _ s' => any_suffix s'
         end) s
  | One :: rest =>
      match s with
      | String _ s' => glob_items rest s'
      | EmptyString => false
      end
  | OneOf inv members :: rest =>
      match s with
      | String c s' => xorb (existsb (in_range c) members) inv && glob_items rest s'
      | EmptyString => false
      end
  | Char k :: rest =>
      match s with
      | String c s' => Ascii.eqb c k && glob_items rest s'
      | EmptyString => false
      end
  | Unclosed :: _ => false
  end.

(** [x GLOB pattern].  Characters are compared one byte at a time; SQLite
    reads UTF-8 code points, which gives the same answer for the patterns
    of these schemas (plain ASCII characters and digit sets only). *)
Definition GLOB (x pattern : string) : bool := glob_items (parse Top pattern) x.

(** [LENGTH(x)] of a TEXT value, in bytes (SQLite counts characters; the
    two agree on ASCII text, all a matching phone number can hold). *)
Definition LENGTH (x : string) : Z := Z.of_nat (String.length x).

(** [a < b] on REAL values. *)
Definition real_lt (a b : Q) : bool := negb (Qle_bool b a).

Definition has {A} (p : A -> bool) (rows : list A) : bool := existsb p rows.

(** ** Rows whose DDL is the same in the two schema variants *)

Module Table.
(** ["Table"] in the original schema, [_Table] in the refined one; REAL
    coordinates are read as rationals. *)
Record row : Type := mk {
  table_number : Z;
  default_chairs : Z;
  max_chairs : Z;
  tl_x : Q; tl_y : Q;
  tr_x : Q; tr_y : Q;
  bl_x : Q; bl_y : Q;
  br_x : Q; br_y : Q
}.

(** "Enforce geometry" *)
Definition check (r : row) : bool :=
  real_lt (tl_x r) (tr_x r)
  && real_lt (bl_x r) (br_y r)
  && real_lt (bl_y r) (tl_y r)
  && real_lt (br_y r) (tr_y r).

Definition insert (rows : list row) (r : row) : result (list row) :=
  require (check r) CHECK (
  require (negb (has (fun x => table_number x =? table_number r) rows)) PRIMARYKEY (
  Ok (r :: rows))).
End Table.

Module Customer.
Record row : Type := mk {
  customer_id : Z;
  first_name : string;
  last_name : string;
  phone_number : string;
  email : option string
}.

(** "Enforce phone number format" *)
Definition check (r : row) : bool :=
  (LENGTH (phone_number r) =? 14)
  && GLOB (phone_number r) "([0-9][0-9][0-9]) [0-9][0-9][0-9]-[0-9][0-9][0-9][0-9]".

Definition same_identity (a b : row) : bool :=
  String.eqb (first_name a) (first_name b)
  && String.eqb (last_name a) (last_name b)
  && String.eqb (phone_number a) (phone_number b).

Definition insert (rows : list row) (r : row) : result (list row) :=
  require (check r) CHECK (
  require (negb (has (fun x => customer_id x =? customer_id r) rows)) PRIMARYKEY (
  require (negb (has (same_identity r) rows)) UNIQUE (
  Ok (r :: rows)))).
End Customer.

Module Layout.
Record row : Type := mk {
  layout_id : Z;
  layout_common_name : option string
}.

Definition insert (rows : list row) (r : row) : result (list row) :=
  require (negb (has (fun x => layout_id x =? layout_id r) rows)) PRIMARYKEY (
  Ok (r :: rows)).
End Layout.

Module Section_.
(** The table [Section]. *)
Record row : Type := mk {
  section_id : Z;
  section_common_name : option string
}.

Definition insert (rows : list row) (r : row) : result (list row) :=
  require (negb (has (fun x => section_id x =? section_id r) rows)) PRIMARYKEY (
  Ok (r :: rows)).
End Section_.

Module SectionInLayout.
Record row : Type := mk {
  section_id : Z;
  layout_id : Z;
  section_number : Z;
  server_name : option string
}.

Definition insert (sections : list Section_.row) (layouts : list Layout.row)
           (rows : list row) (r : row) : result (list row) :=
  require (negb (has (fun x => (section_id x =? section_id r)
                               && (layout_id x =? layout_id r)) rows)) PRIMARYKEY (
  require (negb (has (fun x => (layout_id x =? layout_id r)
                               && (section_number x =? section_number r)) rows)) UNIQUE (
  require (has (fun s => Section_.section_id s =? section_id r) sections) FOREIGNKEY (
  require (has (fun l => Layout.layout_id l =? layout_id r) layouts) FOREIGNKEY (
  Ok (r :: rows))))).
End SectionInLayout.

Module TableInSection.
Record row : Type := mk {
  table_number : Z;
  layout_id : Z;
  section_number : Z
}.

Definition same_key (a b : row) : bool :=
  (table_number a =? table_number b)
  && (layout_id a =? layout_id b)
  && (section_number a =? section_number b).

Definition insert (tables : list Table.row) (slots : list SectionInLayout.row)
           (rows : list row) (r : row) : result (list row) :=
  require (negb (has (same_key r) rows)) PRIMARYKEY (
  require (has (fun t => Table.table_number t =? table_number r) tables) FOREIGNKEY (
  require (has (fun s => (SectionInLayout.layout_id s =? layout_id r)
                         && (SectionInLayout.section_number s =? section_number r))
               slots) FOREIGNKEY (
  Ok (r :: rows)))).
End TableInSection.

(** ** The original schema: with the TableSet layer *)

Module Original.

Module TableSet.
Record row : Type := mk {
  table_set_id : Z;
  combined_default_chairs : Z;
  combined_max_chairs : Z
}.

Definition insert (rows : list row) (r : row) : result (list row) :=
  require (negb (has (fun x => table_set_id x =? table_set_id r) rows)) PRIMARYKEY (
  Ok (r :: rows)).
End TableSet.

Module TableInTableSet.
Record row : Type := mk {
  table_number : Z;
  table_set_id : Z
}.

Definition insert (tables : list Table.row) (sets : list TableSet.row)
           (rows : list row) (r : row) : result (list row) :=
  require (negb (has (fun x => (table_number x =? table_number r)
                               && (table_set_id x =? table_set_id r)) rows)) PRIMARYKEY (
  require (has (fun s => TableSet.table_set_id s =? table_set_id r) sets) FOREIGNKEY (
  require (has (fun t => Table.table_number t =? table_number r) tables) FOREIGNKEY (
  Ok (r :: rows)))).
End TableInTableSet.

Module Reservation.
Record row : Type := mk {
  reservation_id : Z;
  customer_id : Z;
  num_people : Z;
  table_set_id : option Z;
  reservation_datetime : string;
  date_created : string;
  num_highchairs : option Z;
  notes : option string
}.

(** "Enforce res_datetime and date_created are ISO format" *)
Definition datetime_glob : string := "####-##-## ##:##:##".

Definition check (r : row) : bool :=
  GLOB (reservation_datetime r) datetime_glob
  && GLOB (date_created r) datetime_glob.

(** "a customer can only have one reservation at a given time" *)
Definition same_slot (a b : row) : bool :=
  (customer_id a =? customer_id b)
  && String.eqb (reservation_datetime a) (reservation_datetime b).

Definition insert (customers : list Customer.row) (sets : list TableSet.row)
           (rows : list row) (r : row) : result (list row) :=
  require (check r) CHECK (
  require (negb (has (fun x => reservation_id x =? reservation_id r) rows)) PRIMARYKEY (
  require (negb (has (same_slot r) rows)) UNIQUE (
  require (has (fun c => Customer.customer_id c =? customer_id r) customers) FOREIGNKEY (
  require (match table_set_id r with
           | Some ts => has (fun s => TableSet.table_set_id s =? ts) sets
           | None => true
           end) FOREIGNKEY (
  Ok (r :: rows)))))).
End Reservation.

Module TableSetInSection.
Record row : Type := mk {
  table_set_id : Z;
  layout_id : Z;
  section_number : Z
}.

Definition insert (sets : list TableSet.row) (slots : list SectionInLayout.row)
           (rows : list row) (r : row) : result (list row) :=
  require (negb (has (fun x => (table_set_id x =? table_set_id r)
                               && (layout_id x =? layout_id r)
                               && (section_number x =? section_number r)) rows))
          PRIMARYKEY (
  require (has (fun s => TableSet.table_set_id s =? table_set_id r) sets) FOREIGNKEY (
  require (has (fun s => (SectionInLayout.layout_id s =? layout_id r)
                         && (SectionInLayout.section_number s =? section_number r))
               slots) FOREIGNKEY (
  Ok (r :: rows)))).
End TableSetInSection.

End Original.

(** ** The refined schema: reservations placed on tables *)

Module Refined.

Module Reservation.
Record row : Type := mk {
  reservation_id : Z;
  customer_id : Z;
  num_people : Z;
  reservation_datetime : string;
  date_created : string;
  num_highchairs : option Z;
  notes : option string
}.

(** "Enforce res_datetime and date_created are ISO format" *)
Definition datetime_glob : string :=
  "[0-9][0-9][0-9][0-9]-[0-9][0-9]-[0-9][0-9] [0-9][0-9]:[0-9][0-9]:[0-9][0-9]".

Definition check (r : row) : bool :=
  GLOB (reservation_datetime r) datetime_glob
  && GLOB (date_created r) datetime_glob.

(** "a customer can only have one reservation at a given time" *)
Definition same_slot (a b : row) : bool :=
  (customer_id a =? customer_id b)
  && String.eqb (reservation_datetime a) (reservation_datetime b).

(** "Make FK for ReservationAtTable targetable" *)
Definition same_target (a b : row) : bool :=
  (reservation_id a =? reservation_id b)
  && String.eqb (reservation_datetime a) (reservation_datetime b).

Definition insert (customers : list Customer.row)
           (rows : list row) (r : row) : result (list row) :=
  require (check r) CHECK (
  require (negb (has (fun x => reservation_id x =? reservation_id r) rows)) PRIMARYKEY (
  require (negb (has (same_slot r) rows)) UNIQUE (
  require (negb (has (same_target r) rows)) UNIQUE (
  require (has (fun c => Customer.customer_id c =? customer_id r) customers) FOREIGNKEY (
  Ok (r :: rows)))))).
End Reservation.

Module ReservationAtTable.
Record row : Type := mk {
  reservation_id : Z;
  reservation_datetime : string;
  table_number : Z
}.

Definition same_key (a b : row) : bool :=
  (reservation_id a =? reservation_id b)
  && String.eqb (reservation_datetime a) (reservation_datetime b)
  && (table_number a =? table_number b).

Definition insert (reservations : list Reservation.row) (tables : list Table.row)
           (rows : list row) (r : row) : result (list row) :=
  require (negb (has (same_key r) rows)) PRIMARYKEY (
  require (has (fun x => (Reservation.reservation_id x =? reservation_id r)
                         && String.eqb (Reservation.reservation_datetime x)
                                       (reservation_datetime r))
               reservations) FOREIGNKEY (
  require (has (fun t => Table.table_number t =? table_number r) tables) FOREIGNKEY (
  Ok (r :: rows)))).
End ReservationAtTable.

End Refined.

(** ** What the statements talk about *)

(** The four corner-ordering inequalities of a table. *)
Definition corner_ordering (t : Table.row) : Prop :=
  (Table.tl_x t < Table.tr_x t)%Q /\ (Table.bl_x t < Table.br_x t)%Q /\
  (Table.bl_y t < Table.tl_y t)%Q /\ (Table.br_y t < Table.tr_y t)%Q.

(** The digit pattern [YYYY-MM-DD HH:MM:SS]. *)
Definition iso_shape : list Shape.atom :=
  Shape.digits 4 ++ [Shape.lit "-"] ++ Shape.digits 2 ++ [Shape.lit "-"] ++
  Shape.digits 2 ++ [Shape.lit " "] ++ Shape.digits 2 ++ [Shape.lit ":"] ++
  Shape.digits 2 ++ [Shape.lit ":"] ++ Shape.digits 2.

(** A pattern item that stands for one position of a shape. *)
Inductive stands_for : item -> Shape.atom -> Prop :=
| stands_digit :
    stands_for (OneOf false [("0"%char, "9"%char); ("0"%char, "0"%char)]) Shape.digit
| stands_char c : stands_for (Char c) (Shape.lit c).

(** The keys that the uniqueness constraints are about. *)
Definition customer_identity (c : Customer.row) : string * string * string :=
  (Customer.first_name c, Customer.last_name c, Customer.phone_number c).

Definition original_slot (r : Original.Reservation.row) : Z * string :=
  (Original.Reservation.customer_id r, Original.Reservation.reservation_datetime r).

Definition refined_slot (r : Refined.Reservation.row) : Z * string :=
  (Refined.Reservation.customer_id r, Refined.Reservation.reservation_datetime r).

(** A table occupied at a date-time, as ReservationAtTable records it. *)
Definition occupancy (r : Refined.ReservationAtTable.row) : Z * string :=
  (Refined.ReservationAtTable.table_number r,
   Refined.ReservationAtTable.reservation_datetime r).

(** The layout a table is placed in. *)
Definition placement (r : TableInSection.row) : Z * Z :=
  (TableInSection.table_number r, TableInSection.layout_id r).

End Sqlite.

(* ================================================================== *)
(** * Rows and statement sequences of the scenarios *)
(* ================================================================== *)

Module Scenarios.
Import Sqlite.

(** Table 5, with corners that pass the CHECK as it is written. *)
Definition table5 : Table.row :=
  Table.mk 5 2 4 0 10 2 10 0 0 2 1.

(** Table 1 of Scenario A: corners (0,10)-(2,10)-(0,0)-(2,0). *)
Definition table1_scenarioA : Table.row :=
  Table.mk 1 2 4 0 10 2 10 0 0 2 0.

(** A table whose bottom-right corner lies left of its bottom-left one. *)
Definition table_crossed : Table.row :=
  Table.mk 7 2 4 0 10 2 10 0 0 (-5) 1.

Definition ana_silva : Customer.row :=
  Customer.mk 1 "Ana" "Silva" "(555) 123-4567" None.
Definition ana_souza : Customer.row :=
  Customer.mk 2 "Ana" "Souza" "(555) 123-4567" None.
Definition ana_silva_again : Customer.row :=
  Customer.mk 3 "Ana" "Silva" "(555) 123-4567" (Some "ana@example.org").

Definition evening : string := "2024-06-01 18:00:00".

Definition booking (id customer : Z) : Refined.Reservation.row :=
  Refined.Reservation.mk id customer 4 evening "2024-05-20 09:30:00" (Some 0) None.

Definition at_table (reservation table : Z) : Refined.ReservationAtTable.row :=
  Refined.ReservationAtTable.mk reservation evening table.

Definition layoutA : Layout.row := Layout.mk 1 (Some "A").
Definition layoutB : Layout.row := Layout.mk 2 (Some "B").
Definition section1 : Section_.row := Section_.mk 1 None.
Definition section2 : Section_.row := Section_.mk 2 None.

Notation "x <- r ;; k" := (and_then r (fun x => k))
  (at level 61, r at next level, right associativity).
Notation "' pat <- r ;; k" := (and_then r (fun x => match x with pat => k end))
  (at level 61, pat pattern, r at next level, right associativity).

(** Two customers, each with a reservation for the same evening, and
    Table 5. *)
Definition two_bookings
  : result (list Refined.Reservation.row * list Table.row) :=
  customers <- Customer.insert [] ana_silva ;;
  customers <- Customer.insert customers ana_souza ;;
  reservations <- Refined.Reservation.insert customers [] (booking 1 1) ;;
  reservations <- Refined.Reservation.insert customers reservations (booking 2 2) ;;
  tables <- Table.insert [] table5 ;;
  Ok (reservations, tables).

(** Both reservations placed on Table 5 at that date-time. *)
Definition double_booking : result (list Refined.ReservationAtTable.row) :=
  '(reservations, tables) <- two_bookings ;;
  placed <- Refined.ReservationAtTable.insert reservations tables [] (at_table 1 5) ;;
  Refined.ReservationAtTable.insert reservations tables placed (at_table 2 5).

(** Layout A with sections 1 and 2, layout B with section 1, and Table 5. *)
Definition floor : result (list Table.row * list SectionInLayout.row) :=
  tables <- Table.insert [] table5 ;;
  layouts <- Layout.insert [] layoutA ;;
  layouts <- Layout.insert layouts layoutB ;;
  sections <- Section_.insert [] section1 ;;
  sections <- Section_.insert sections section2 ;;
  slots <- SectionInLayout.insert sections layouts []
             (SectionInLayout.mk 1 1 1 None) ;;
  slots <- SectionInLayout.insert sections layouts slots
             (SectionInLayout.mk 2 1 2 (Some "Rui")) ;;
  slots <- SectionInLayout.insert sections layouts slots
             (SectionInLayout.mk 1 2 1 None) ;;
  Ok (tables, slots).

(** Scenario D: Table 5 into section 1 of layout A, then into section 2 of
    layout A, then into section 1 of layout B. *)
Definition scenarioD : result (list TableInSection.row) :=
  '(tables, slots) <- floor ;;
  placed <- TableInSection.insert tables slots [] (TableInSection.mk 5 1 1) ;;
  placed <- TableInSection.insert tables slots placed (TableInSection.mk 5 1 2) ;;
  TableInSection.insert tables slots placed (TableInSection.mk 5 2 1).

End Scenarios.

(* ================================================================== *)
(** * Notions used to state further properties *)
(* ================================================================== *)

Module Notions.
Import JS Sqlite.

(** The day number of the date of the fields. *)
Definition day_of (f : fields) : Z := MakeDay (f_year f) (f_month f - 1) (f_day f).

(** The date of the fields read as one number, YYYYMMDD. *)
Definition date_stamp (f : fields) : Z :=
  (f_year f * 100 + f_month f) * 100 + f_day f.

(** The fields read as one number, YYYYMMDDHHMMSS: the string without its
    separators. *)
Definition stamp (f : fields) : Z :=
  ((date_stamp f * 100 + f_hour f) * 100 + f_minute f) * 100 + f_second f.

(** The message of the [InvalidDateError] of [getReservations]. *)
Definition invalid_dates_message (startDateTime endDateTime : string) : string :=
  "One of the given dates is not valid. Given [startDateTime = "
  ++ startDateTime ++ "], [endDateTime = " ++ endDateTime ++ "].".

(** The URL [getReservations] fetches. *)
Definition reservations_url (apiUri startDateTime endDateTime : string) : string :=
  apiUri ++ "/get-reservations?startDateTime=" ++ startDateTime
  ++ "&endDateTime=" ++ endDateTime.

(** The phone number pattern [(XXX) XXX-XXXX]. *)
Definition phone_shape : list Shape.atom :=
  [Shape.lit "("] ++ Shape.digits 3 ++ [Shape.lit ")"; Shape.lit " "] ++
  Shape.digits 3 ++ [Shape.lit "-"] ++ Shape.digits 4.

(** A row of ReservationAtTable points at a reservation: some row of
    Reservation has its id and its date-time. *)
Definition points_at (reservations : list Refined.Reservation.row)
           (x : Refined.ReservationAtTable.row) : Prop :=
  exists r, In r reservations /\
    Refined.Reservation.reservation_id r = Refined.ReservationAtTable.reservation_id x /\
    Refined.Reservation.reservation_datetime r
    = Refined.ReservationAtTable.reservation_datetime x.

(** The two keys of SectionInLayout: the section in a layout, and the
    numbered slot of a layout. *)
Definition binding_of (r : SectionInLayout.row) : Z * Z :=
  (SectionInLayout.section_id r, SectionInLayout.layout_id r).

Definition slot_of (r : SectionInLayout.row) : Z * Z :=
  (SectionInLayout.layout_id r, SectionInLayout.section_number r).

(** The four inequalities the geometry CHECK tests, as it is written. *)
Definition checked_geometry (t : Table.row) : Prop :=
  (Table.tl_x t < Table.tr_x t)%Q /\ (Table.bl_x t < Table.br_y t)%Q /\
  (Table.bl_y t < Table.tl_y t)%Q /\ (Table.br_y t < Table.tr_y t)%Q.

(** The same table with other chair counts. *)
Definition with_chairs (default_chairs max_chairs : Z) (t : Table.row) : Table.row :=
  Table.mk (Table.table_number t) default_chairs max_chairs
    (Table.tl_x t) (Table.tl_y t) (Table.tr_x t) (Table.tr_y t)
    (Table.bl_x t) (Table.bl_y t) (Table.br_x t) (Table.br_y t).

(** The same reservation with another party, other highchairs and notes. *)
Definition with_party (num_people : Z) (num_highchairs : option Z)
           (notes : option string) (r : Refined.Reservation.row)
  : Refined.Reservation.row :=
  Refined.Reservation.mk (Refined.Reservation.reservation_id r)
    (Refined.Reservation.customer_id r) num_people
    (Refined.Reservation.reservation_datetime r)
    (Refined.Reservation.date_created r) num_highchairs notes.

End Notions.

(* ================================================================== *)
(** * Facts about the time functions *)
(* ================================================================== *)

Module TimeFacts.
Import JS.

Lemma DayFromYear_succ y : DayFromYear (y + 1) = DayFromYear y + DaysInYear y.
Proof.
  unfold DayFromYear, DaysInYear.
  destruct (Z.eqb_spec (y mod 4) 0), (Z.eqb_spec (y mod 100) 0),
    (Z.eqb_spec (y mod 400) 0); cbn [negb];
    Z.to_euclidean_division_equations; lia.
Qed.

Lemma DayFromYear_lt y y' : y < y' -> DayFromYear y < DayFromYear y'.
Proof. unfold DayFromYear. intros. Z.to_euclidean_division_equations. lia. Qed.

(** [YearFromTime] is the year the definition of ECMA-262 asks for. *)
Lemma YearFromTime_spec t :
  DayFromYear (YearFromTime t) <= Day t < DayFromYear (YearFromTime t + 1).
Proof.
  unfold YearFromTime. generalize (Day t) as d. intro d. cbv zeta.
  set (y := 1970 + 400 * d / 146097).
  destruct (Z.ltb_spec d (DayFromYear y)).
  - replace (y - 1 + 1) with y by lia. split; [|lia].
    subst y. unfold DayFromYear in *. Z.to_euclidean_division_equations; lia.
  - destruct (Z.leb_spec (DayFromYear (y + 1)) d); [|lia].
    split; [lia|].
    subst y. unfold DayFromYear in *. Z.to_euclidean_division_equations; lia.
Qed.

Lemma YearFromTime_unique t y :
  DayFromYear y <= Day t < DayFromYear (y + 1) -> YearFromTime t = y.
Proof.
  intros H. pose proof (YearFromTime_spec t) as G.
  destruct (Z.lt_trichotomy (YearFromTime t) y) as [L|[L|L]]; [|exact L|].
  - destruct (Z.eq_dec (YearFromTime t + 1) y) as [E|N].
    + rewrite E in G. lia.
    + pose proof (DayFromYear_lt (YearFromTime t + 1) y). lia.
  - destruct (Z.eq_dec (y + 1) (YearFromTime t)) as [E|N].
    + rewrite E in H. lia.
    + pose proof (DayFromYear_lt (y + 1) (YearFromTime t)). lia.
Qed.

Lemma DaysInYear_leap y : DaysInYear y = if leap_year y then 366 else 365.
Proof.
  unfold DaysInYear, leap_year.
  destruct (Z.eqb_spec (y mod 4) 0), (Z.eqb_spec (y mod 100) 0),
    (Z.eqb_spec (y mod 400) 0); cbn; try reflexivity.
  all: exfalso; Z.to_euclidean_division_equations; lia.
Qed.

Lemma MakeDay_in_year y m d :
  0 <= m <= 11 ->
  MakeDay y m d
  = DayFromYear y + DayFromMonth m (if leap_year y then 1 else 0) + d - 1.
Proof.
  intros Hm. unfold MakeDay.
  rewrite (Z.div_small m 12), (Z.mod_small m 12), Z.add_0_r, DaysInYear_leap by lia.
  destruct (leap_year y); reflexivity.
Qed.

Ltac month_const :=
  repeat match goal with
  | |- context [ match ?a + 1 with _ => _ end ] =>
      let v := eval vm_compute in (a + 1) in
      change (a + 1) with v; cbv beta iota
  | H : context [ match ?a + 1 with _ => _ end ] |- _ =>
      let v := eval vm_compute in (a + 1) in
      change (a + 1) with v in H; cbv beta iota in H
  end.

Ltac split_ltb :=
  repeat match goal with
  | |- context [ ?a <? ?b ] => destruct (Z.ltb_spec a b)
  end.

Ltac each_month m :=
  let C := fresh "C" in
  assert (C : m = 0 \/ m = 1 \/ m = 2 \/ m = 3 \/ m = 4 \/ m = 5 \/ m = 6 \/
              m = 7 \/ m = 8 \/ m = 9 \/ m = 10 \/ m = 11) by lia;
  repeat (destruct C as [C|C]; [subst m|]); [..|subst m].

(** Every time value falls on a real calendar day, and [MakeDay] of its
    year, month and date gives its day number back. *)
Lemma MakeDay_of_fields t :
  Day t = MakeDay (YearFromTime t) (MonthFromTime t) (DateFromTime t)
  /\ 0 <= MonthFromTime t <= 11
  /\ 1 <= DateFromTime t <= days_in_month (YearFromTime t) (MonthFromTime t + 1).
Proof.
  pose proof (YearFromTime_spec t) as B.
  rewrite DayFromYear_succ, DaysInYear_leap in B.
  assert (M : 0 <= MonthFromTime t <= 11).
  { unfold MonthFromTime. cbv zeta. split_ltb; lia. }
  rewrite MakeDay_in_year by exact M.
  split; [|split; [exact M|]]; clear M.
  all: unfold DateFromTime, MonthFromTime, InLeapYear, DayWithinYear, days_in_month;
    cbv zeta; rewrite DaysInYear_leap;
    set (y := YearFromTime t) in *;
    destruct (leap_year y); cbn [Z.eqb Pos.eqb] in *;
    split_ltb; cbv beta iota delta [DayFromMonth]; month_const; lia.
Qed.

(** A real calendar day is read back as itself. *)
Lemma fields_of_MakeDay t y m d :
  0 <= m <= 11 -> 1 <= d <= days_in_month y (m + 1) ->
  Day t = MakeDay y m d ->
  YearFromTime t = y /\ MonthFromTime t = m /\ DateFromTime t = d.
Proof.
  intros Hm Hd E. rewrite MakeDay_in_year in E by exact Hm.
  assert (Y : YearFromTime t = y).
  { apply YearFromTime_unique. rewrite DayFromYear_succ, DaysInYear_leap, E.
    unfold days_in_month in *.
    destruct (leap_year y); each_month m;
      cbv beta iota delta [DayFromMonth] in *; month_const; lia. }
  split; [exact Y|].
  unfold DateFromTime, MonthFromTime, InLeapYear, DayWithinYear. cbv zeta.
  rewrite Y, DaysInYear_leap, E.
  unfold days_in_month in *.
  generalize dependent (DayFromYear y). intros d0 E.
  destruct (leap_year y); cbn [Z.eqb Pos.eqb]; each_month m;
    cbv beta iota delta [DayFromMonth] in *; month_const;
    split_ltb; cbv beta iota; lia.
Qed.

(** The time of day, to the second. *)
Lemma time_fields day h mi s t' :
  0 <= h <= 23 -> 0 <= mi <= 59 -> 0 <= s <= 59 ->
  (MakeDate day (MakeTime h mi s 0) <= t'
     < MakeDate day (MakeTime h mi s 0) + msPerSecond)
  <->
  (Day t' = day /\ HourFromTime t' = h /\ MinFromTime t' = mi /\ SecFromTime t' = s).
Proof.
  intros Hh Hm Hs.
  unfold MakeDate, MakeTime, Day, HourFromTime, MinFromTime, SecFromTime,
    msPerDay, msPerHour, msPerMinute, msPerSecond.
  replace (t' / 86400000) with ((t' / 1000) / 86400)
    by (rewrite Z.div_div by lia; reflexivity).
  replace (t' / 3600000) with ((t' / 1000) / 3600)
    by (rewrite Z.div_div by lia; reflexivity).
  replace (t' / 60000) with ((t' / 1000) / 60)
    by (rewrite Z.div_div by lia; reflexivity).
  split.
  - intros B.
    assert (Q : t' / 1000 = day * 86400 + h * 3600 + mi * 60 + s)
      by (Z.to_euclidean_division_equations; lia).
    rewrite Q. clear B Q. repeat split; Z.to_euclidean_division_equations; lia.
  - intros (D & H & M & S).
    assert (Q : t' / 1000 = day * 86400 + h * 3600 + mi * 60 + s).
    { generalize dependent (t' / 1000). intros q D H M S.
      Z.to_euclidean_division_equations; lia. }
    clear D H M S. Z.to_euclidean_division_equations; lia.
Qed.

(** Local times of the years 0000-9999 stay far inside the time range. *)
Lemma local_time_range f :
  0 <= f_year f <= 9999 -> 1 <= f_month f <= 12 -> 0 <= f_day f <= 99 ->
  0 <= f_hour f <= 99 -> 0 <= f_minute f <= 99 -> 0 <= f_second f <= 99 ->
  Z.abs (local_time_of f) <= 300000000000000.
Proof.
  intros Hy Hmo Hd Hh Hmi Hs. unfold local_time_of, MakeDate, MakeTime.
  rewrite MakeDay_in_year by lia.
  assert (0 <= DayFromMonth (f_month f - 1) (if leap_year (f_year f) then 1 else 0) <= 335).
  { assert (Hm : 0 <= f_month f - 1 <= 11) by lia.
    revert Hm. generalize (f_month f - 1) as m. intros m Hm.
    destruct (leap_year (f_year f)); each_month m;
      cbv beta iota delta [DayFromMonth]; lia. }
  assert (-719528 <= DayFromYear (f_year f) <= 2932896).
  { unfold DayFromYear. Z.to_euclidean_division_equations; lia. }
  unfold msPerDay, msPerHour, msPerMinute, msPerSecond. lia.
Qed.

End TimeFacts.

(* ================================================================== *)
(** * The date-time validator and the range check *)
(* ================================================================== *)

Module ValidatorFacts.
Import JS TimeFacts.

(** ** Strings of the date-time form *)

Lemma digit_not_separator c :
  Shape.is_digit c = true ->
  Ascii.eqb c "T" = false /\ Ascii.eqb c "-" = false /\ Ascii.eqb c ":" = false.
Proof.
  destruct c as [[] [] [] [] [] [] [] []]; vm_compute; intuition congruence.
Qed.

Lemma digit_value_range c : Shape.is_digit c = true -> 0 <= digit_value c <= 9.
Proof.
  unfold Shape.is_digit, digit_value. intros H.
  apply andb_true_iff in H. destruct H as [H1 H2].
  apply Nat.leb_le in H1, H2. lia.
Qed.

Lemma matches_cons a p c s :
  Shape.matches (a :: p) (String c s) = Shape.atom_match a c && Shape.matches p s.
Proof. reflexivity. Qed.

Lemma split_lacks sep a : lacks sep a = true -> split sep a = [a].
Proof.
  induction a as [|c a IH]; cbn [lacks split]; [reflexivity|].
  intros H. apply andb_true_iff in H. destruct H as [H1 H2].
  apply negb_true_iff in H1. rewrite H1, (IH H2). reflexivity.
Qed.

Lemma split_app sep a b l :
  lacks sep a = true -> split sep b = l ->
  split sep (a ++ String sep b) = a :: l.
Proof.
  intros H <-. induction a as [|c a IH]; cbn [lacks split String.append] in *.
  - rewrite Ascii.eqb_refl. reflexivity.
  - apply andb_true_iff in H. destruct H as [H1 H2].
    apply negb_true_iff in H1. rewrite H1, (IH H2). reflexivity.
Qed.

(** One step of reading a string against a pattern. *)
Ltac peel H c :=
  lazymatch type of H with
  | Shape.matches _ ?s = true =>
      let tl := fresh "tl" in
      destruct s as [|c tl]; [discriminate H|];
      rewrite matches_cons in H; cbn [Shape.atom_match] in H;
      apply andb_true_iff in H;
      let D := fresh "D" in destruct H as [D H]
  end.

(** A string that fits the regular expression, taken apart. *)
Ltac take_apart H :=
  change datetime_regex with
    [Shape.digit; Shape.digit; Shape.digit; Shape.digit; Shape.lit "-";
     Shape.digit; Shape.digit; Shape.lit "-"; Shape.digit; Shape.digit;
     Shape.lit "T"; Shape.digit; Shape.digit; Shape.lit ":";
     Shape.digit; Shape.digit; Shape.lit ":"; Shape.digit; Shape.digit] in H;
  let y1 := fresh "y1" in let y2 := fresh "y2" in
  let y3 := fresh "y3" in let y4 := fresh "y4" in
  let m1 := fresh "m1" in let m2 := fresh "m2" in
  let d1 := fresh "d1" in let d2 := fresh "d2" in
  let h1 := fresh "h1" in let h2 := fresh "h2" in
  let i1 := fresh "i1" in let i2 := fresh "i2" in
  let s1 := fresh "s1" in let s2 := fresh "s2" in
  let k1 := fresh "k" in let k2 := fresh "k" in let k3 := fresh "k" in
  let k4 := fresh "k" in let k5 := fresh "k" in
  peel H y1; peel H y2; peel H y3; peel H y4; peel H k1;
  peel H m1; peel H m2; peel H k2; peel H d1; peel H d2; peel H k3;
  peel H h1; peel H h2; peel H k4; peel H i1; peel H i2; peel H k5;
  peel H s1; peel H s2;
  lazymatch type of H with
  | Shape.matches [] ?s = true => destruct s; [|discriminate H]
  end;
  clear H;
  repeat match goal with
  | E : Ascii.eqb _ _ = true |- _ => apply Ascii.eqb_eq in E; subst
  end.

Ltac use_eqb sep :=
  repeat match goal with
  | E : Ascii.eqb _ sep = false |- _ => rewrite !E; clear E
  end.

Lemma read_fields_range str f :
  read_fields str = Some f ->
  0 <= f_year f <= 9999 /\ 0 <= f_month f <= 99 /\ 0 <= f_day f <= 99 /\
  0 <= f_hour f <= 99 /\ 0 <= f_minute f <= 99 /\ 0 <= f_second f <= 99.
Proof.
  unfold read_fields.
  destruct (Shape.matches datetime_regex str) eqn:H; [|discriminate].
  take_apart H.
  cbn [substring]. unfold Number. cbn [decimal].
  repeat match goal with
  | E : Shape.is_digit ?c = true |- _ =>
      rewrite !E; apply digit_value_range in E
  end.
  intros E.
  assert (E' := f_equal (fun o => match o with Some x => x | None => f end) E).
  cbv beta iota in E'. subst f.
  cbv beta iota delta [f_year f_month f_day f_hour f_minute f_second]. lia.
Qed.

Lemma read_fields_regex str :
  Shape.matches datetime_regex str = true <-> exists f, read_fields str = Some f.
Proof.
  unfold read_fields. split.
  - intros H. rewrite H. take_apart H.
    cbn [substring]. unfold Number. cbn [decimal].
    repeat match goal with
    | E : Shape.is_digit ?c = true |- _ => rewrite !E; clear E
    end.
    eexists. reflexivity.
  - intros [f H]. destruct (Shape.matches datetime_regex str); [reflexivity|discriminate].
Qed.

(** ** The model on known values *)

Example epoch : Date_parse utc strict_parse "1970-01-01T00:00:00" = Num 0.
Proof. reflexivity. Qed.

Example leap_day_2024 :
  isValidDateTime utc strict_parse "2024-02-29T12:15:00" = Return true /\
  isValidDateTime utc strict_parse "2023-02-29T12:15:00" = Return false /\
  isValidDateTime utc strict_parse "2024-06-01T18:10:00" = Return false /\
  isValidDateTime utc strict_parse "2024-06-01T18:00:01" = Return false /\
  isValidDateTime utc strict_parse "2024-13-01T18:00:00" = Return false /\
  isValidDateTime utc strict_parse "2024-06-01T24:00:00" = Return false /\
  isValidDateTime utc strict_parse "2024-06-01 18:00:00" = Return false.
Proof. repeat split; vm_compute; reflexivity. Qed.

(** In New York the clocks went from 02:00 to 03:00 on 10 March 2024 and
    from 02:00 back to 01:00 on 3 November. *)
Example new_york_clock_changes :
  new_Date new_york_2024 strict_parse "2024-03-10T01:45:00" = Num 1710053100000 /\
  getHours new_york_2024 (new_Date new_york_2024 strict_parse "2024-03-10T02:00:00")
  = Num 3 /\
  getHours new_york_2024 (new_Date new_york_2024 strict_parse "2024-03-10T03:00:00")
  = Num 3 /\
  getHours new_york_2024 (new_Date new_york_2024 strict_parse "2024-11-03T01:30:00")
  = Num 1.
Proof. repeat split; vm_compute; reflexivity. Qed.

Section Host.
Variable LocalTZA : Z -> bool -> Z.
Variable parse_other : string -> number.

Abbreviation isValidDateTime := (isValidDateTime LocalTZA parse_other).
Abbreviation isDateTimeInRange := (isDateTimeInRange LocalTZA parse_other).
Abbreviation new_Date := (new_Date LocalTZA parse_other).
Abbreviation Date_parse := (Date_parse LocalTZA parse_other).
Abbreviation field_checks := (field_checks LocalTZA).
Abbreviation local_time_exists := (local_time_exists LocalTZA).
Abbreviation LocalTime := (LocalTime LocalTZA).
Abbreviation UTC := (UTC LocalTZA).

(** The function, past its string handling: it always returns, with the
    outcome of the checks on the fields. *)
Lemma isValidDateTime_unfold str :
  isValidDateTime str =
  Return (match read_fields str with
          | Some f => field_checks f (new_Date str)
          | None => false
          end).
Proof.
  unfold JS.isValidDateTime, read_fields, regex_test.
  destruct (Shape.matches datetime_regex str) eqn:H; [|reflexivity].
  cbn [negb].
  set (date := new_Date).
  take_apart H.
  repeat match goal with
  | E : Shape.is_digit ?c = true |- _ =>
      let A := fresh in let B := fresh in let C := fresh in
      destruct (digit_not_separator c E) as (A & B & C);
      revert E
  end.
  intros.
  assert (P : split "T" (String y1 (String y2 (String y3 (String y4 (String "-"
               (String m1 (String m2 (String "-" (String d1 (String d2 (String "T"
               (String h1 (String h2 (String ":" (String i1 (String i2 (String ":"
               (String s1 (String s2 "")))))))))))))))))))
             = [String y1 (String y2 (String y3 (String y4 (String "-"
               (String m1 (String m2 (String "-" (String d1 (String d2 "")))))))));
                String h1 (String h2 (String ":" (String i1 (String i2 (String ":"
               (String s1 (String s2 "")))))))]).
  { apply (split_app "T"
             (String y1 (String y2 (String y3 (String y4 (String "-"
               (String m1 (String m2 (String "-" (String d1 (String d2 ""))))))))))
             (String h1 (String h2 (String ":" (String i1 (String i2 (String ":"
               (String s1 (String s2 ""))))))))).
    all: try apply split_lacks; cbn [lacks]; use_eqb "T"%char; reflexivity. }
  rewrite !P. clear P.
  cbn [element nth_error method_split bind].
  assert (Pd : split "-" (String y1 (String y2 (String y3 (String y4 (String "-"
                 (String m1 (String m2 (String "-" (String d1 (String d2 ""))))))))))
               = [String y1 (String y2 (String y3 (String y4 "")));
                  String m1 (String m2 ""); String d1 (String d2 "")]).
  { apply (split_app "-" (String y1 (String y2 (String y3 (String y4 ""))))
             (String m1 (String m2 (String "-" (String d1 (String d2 "")))))).
    2: apply (split_app "-" (String m1 (String m2 "")) (String d1 (String d2 ""))).
    all: try apply split_lacks; cbn [lacks]; use_eqb "-"%char; reflexivity. }
  assert (Pt : split ":" (String h1 (String h2 (String ":" (String i1 (String i2
                 (String ":" (String s1 (String s2 ""))))))))
               = [String h1 (String h2 ""); String i1 (String i2 "");
                  String s1 (String s2 "")]).
  { apply (split_app ":" (String h1 (String h2 ""))
             (String i1 (String i2 (String ":" (String s1 (String s2 "")))))).
    2: apply (split_app ":" (String i1 (String i2 "")) (String s1 (String s2 ""))).
    all: try apply split_lacks; cbn [lacks]; use_eqb ":"%char; reflexivity. }
  rewrite Pd. cbn [bind]. rewrite Pt. clear Pd Pt.
  cbn [map element_num nth_error interpolate String.append substring].
  unfold Number. cbn [decimal].
  repeat match goal with
  | E : Shape.is_digit _ = true |- _ => rewrite !E; clear E
  end.
  generalize (date (String y1 (String y2 (String y3 (String y4 (String "-"
               (String m1 (String m2 (String "-" (String d1 (String d2 (String "T"
               (String h1 (String h2 (String ":" (String i1 (String i2 (String ":"
               (String s1 (String s2 ""))))))))))))))))))))
    as dt.
  generalize (10 * (10 * (10 * (10 * 0 + digit_value y1) + digit_value y2)
                    + digit_value y3) + digit_value y4) as year.
  generalize (10 * (10 * 0 + digit_value m1) + digit_value m2) as month.
  generalize (10 * (10 * 0 + digit_value d1) + digit_value d2) as day.
  generalize (10 * (10 * 0 + digit_value h1) + digit_value h2) as hour.
  generalize (10 * (10 * 0 + digit_value i1) + digit_value i2) as minute.
  generalize (10 * (10 * 0 + digit_value s1) + digit_value s2) as second.
  intros. unfold JS.field_checks, gt, not_eq, isQuarterHour, rem.
  cbn [f_year f_month f_day f_hour f_minute f_second lt].
  change (15 =? 0) with false. cbv iota.
  change (strict_eq (Num (Z.rem minute 15)) (Num 0)) with (Z.rem minute 15 =? 0).
  change (strict_eq (Num second) (Num 0)) with (second =? 0).
  destruct (month <? 1), (12 <? month), (hour <? 0), (23 <? hour),
    (minute <? 0), (59 <? minute), (Z.rem minute 15 =? 0), (second =? 0);
    reflexivity.
Qed.


(** What the six getters say about a time value: the day is a real
    calendar day, and the host's clock shows the fields at it. *)
Lemma getters_agree f tv :
  1 <= f_month f <= 12 -> 0 <= f_hour f <= 23 ->
  0 <= f_minute f <= 59 -> 0 <= f_second f <= 59 ->
  strict_eq (getFullYear LocalTZA (Num tv)) (Num (f_year f)) &&
  strict_eq (plus (getMonth LocalTZA (Num tv)) (Num 1)) (Num (f_month f)) &&
  strict_eq (getDate LocalTZA (Num tv)) (Num (f_day f)) &&
  strict_eq (getHours LocalTZA (Num tv)) (Num (f_hour f)) &&
  strict_eq (getMinutes LocalTZA (Num tv)) (Num (f_minute f)) &&
  strict_eq (getSeconds LocalTZA (Num tv)) (Num (f_second f)) = true
  <->
  1 <= f_day f <= days_in_month (f_year f) (f_month f) /\
  local_time_of f <= LocalTime tv < local_time_of f + msPerSecond.
Proof.
  intros Hmo Hh Hmi Hs.
  unfold getFullYear, getMonth, getDate, getHours, getMinutes, getSeconds.
  cbn [getter plus strict_eq].
  rewrite !andb_true_iff, !Z.eqb_eq.
  unfold local_time_of. set (t' := LocalTime tv).
  split.
  - intros (((((Y & M) & D) & H) & Mi) & S).
    destruct (MakeDay_of_fields t') as (E & _ & Dr).
    rewrite Y, D in E, Dr.
    replace (MonthFromTime t') with (f_month f - 1) in E by lia.
    replace (MonthFromTime t' + 1) with (f_month f) in Dr by lia.
    split; [exact Dr|].
    apply time_fields; auto.
  - intros (Dr & B).
    apply time_fields in B; [|assumption..].
    destruct B as (Dy & H & Mi & S).
    destruct (fields_of_MakeDay t' (f_year f) (f_month f - 1) (f_day f))
      as (Y & M & D); [lia| |exact Dy|].
    + replace (f_month f - 1 + 1) with (f_month f) by lia. exact Dr.
    + repeat split; try assumption. lia.
Qed.

Lemma quarter_hours mi :
  (mi <? 0) || (59 <? mi) || negb (Z.rem mi 15 =? 0) = false
  <-> In mi [0; 15; 30; 45].
Proof.
  rewrite !orb_false_iff, negb_false_iff, Z.eqb_eq, !Z.ltb_ge. cbn [In].
  split.
  - intros ((L & U) & R). rewrite Z.rem_mod_nonneg in R by lia.
    Z.to_euclidean_division_equations. lia.
  - intros [<-|[<-|[<-|[<-|[]]]]]; cbn; lia.
Qed.

Lemma field_checks_well_formed f d :
  field_checks f d = true ->
  1 <= f_month f <= 12 /\ 0 <= f_hour f <= 23 /\
  In (f_minute f) [0; 15; 30; 45] /\ f_second f = 0.
Proof.
  unfold JS.field_checks. rewrite !andb_true_iff, !negb_true_iff.
  intros ((((Mo & H) & Mi) & S) & _).
  apply quarter_hours in Mi. apply Z.eqb_eq in S.
  apply orb_false_iff in Mo, H. rewrite !Z.ltb_ge in Mo, H. repeat split; lia || assumption.
Qed.

Lemma in_calendar_iff f :
  in_calendar f = true <->
  1 <= f_month f <= 12 /\ 1 <= f_day f <= days_in_month (f_year f) (f_month f) /\
  f_hour f <= 23 /\ f_minute f <= 59 /\ f_second f <= 59.
Proof.
  unfold in_calendar. rewrite !andb_true_iff, !Z.leb_le. lia.
Qed.

Lemma TimeClip_Num t tv : TimeClip t = Num tv -> tv = t.
Proof.
  unfold TimeClip. destruct (8640000000000000 <? Z.abs t); congruence.
Qed.

Lemma minute_range mi : In mi [0; 15; 30; 45] -> 0 <= mi <= 59.
Proof. cbn [In]. lia. Qed.

(** The validator accepts a string exactly when its fields are well
    formed and the host's clock shows them. *)
Lemma isValidDateTime_true str :
  (forall t u, Z.abs (LocalTZA t u) <= msPerDay) ->
  isValidDateTime str = Return true <->
  exists f, read_fields str = Some f /\ well_formed f /\
            local_time_exists (local_time_of f).
Proof.
  intros Zone. rewrite isValidDateTime_unfold. split.
  - destruct (read_fields str) as [f|] eqn:R; [|discriminate].
    intros [= C]. exists f. split; [reflexivity|].
    destruct (field_checks_well_formed _ _ C) as (Mo & H & Mi & S).
    pose proof (minute_range _ Mi) as Mi'.
    unfold JS.field_checks in C. apply andb_true_iff in C. destruct C as [_ G].
    destruct (new_Date str) as [tv|] eqn:Dt; [|discriminate G].
    apply getters_agree in G; [|lia..].
    destruct G as [Dr B].
    unfold JS.new_Date, JS.Date_parse in Dt. rewrite R in Dt.
    assert (Cal : in_calendar f = true) by (apply in_calendar_iff; lia).
    rewrite Cal in Dt. apply TimeClip_Num in Dt. subst tv.
    unfold well_formed, JS.local_time_exists. repeat split; assumption || lia.
  - intros (f & R & (Mo & H & Mi & S & Dr) & B).
    rewrite R. f_equal.
    pose proof (minute_range _ Mi) as Mi'.
    unfold JS.field_checks.
    apply quarter_hours in Mi. rewrite Mi.
    replace (f_month f <? 1) with false by (symmetry; apply Z.ltb_ge; lia).
    replace (12 <? f_month f) with false by (symmetry; apply Z.ltb_ge; lia).
    replace (f_hour f <? 0) with false by (symmetry; apply Z.ltb_ge; lia).
    replace (23 <? f_hour f) with false by (symmetry; apply Z.ltb_ge; lia).
    replace (f_second f =? 0) with true by (symmetry; apply Z.eqb_eq; lia).
    cbn [orb negb andb].
    unfold JS.new_Date, JS.Date_parse. rewrite R.
    assert (Cal : in_calendar f = true) by (apply in_calendar_iff; lia).
    rewrite Cal.
    destruct (read_fields_range _ _ R) as (Ry & Rmo & Rd & Rh & Rmi & Rs).
    pose proof (local_time_range f Ry Mo Rd Rh Rmi Rs) as Rg.
    assert (Clip : TimeClip (UTC (local_time_of f)) = Num (UTC (local_time_of f))).
    { unfold TimeClip, JS.UTC.
      specialize (Zone (local_time_of f) false). unfold msPerDay in Zone.
      replace (8640000000000000 <? _) with false; [reflexivity|].
      symmetry. apply Z.ltb_ge. lia. }
    rewrite Clip. apply getters_agree; [lia..|]. split; assumption.
Qed.

(** ** The range check *)

Lemma isDateTimeInRange_Num t s e a b c :
  new_Date t = Num a -> new_Date s = Num b -> new_Date e = Num c ->
  isDateTimeInRange t s e = Return ((b <=? a) && (a <=? c)).
Proof.
  intros Ht Hs He. unfold JS.isDateTimeInRange. rewrite Ht, Hs, He. reflexivity.
Qed.

Lemma isDateTimeInRange_NaN t s e :
  new_Date t = NaN \/ new_Date s = NaN \/ new_Date e = NaN ->
  isDateTimeInRange t s e = Throw (InvalidDateError "Invalid datetime string provided").
Proof.
  unfold JS.isDateTimeInRange.
  intros [H|[H|H]]; rewrite H; cbn [isNaN orb]; rewrite ?orb_true_r; reflexivity.
Qed.

End Host.

End ValidatorFacts.


(* ================================================================== *)
(** * The reservation query *)
(* ================================================================== *)

Module QueryFacts.
Import JS ValidatorFacts.

Section Host.
Variable LocalTZA : Z -> bool -> Z.
Variable parse_other : string -> number.
Variable fetch : string -> completion Response.
Variable apiUri : string.

Abbreviation isValidDateTime := (isValidDateTime LocalTZA parse_other).
Abbreviation getReservations := (getReservations LocalTZA parse_other fetch apiUri).

(** An invalid boundary ends the call before anything is fetched. *)
Lemma getReservations_fails_fast startDateTime endDateTime :
  isValidDateTime startDateTime = Return false \/
  isValidDateTime endDateTime = Return false ->
  exists message,
    getReservations startDateTime endDateTime = ([], Throw (InvalidDateError message)).
Proof.
  intros H. unfold JS.getReservations.
  rewrite (isValidDateTime_unfold LocalTZA parse_other startDateTime) in *.
  rewrite (isValidDateTime_unfold LocalTZA parse_other endDateTime) in *.
  destruct (match read_fields startDateTime with Some _ => _ | None => _ end).
  - destruct H as [H|H]; [discriminate H|].
    injection H as ->. cbn. eexists. reflexivity.
  - cbn. eexists. reflexivity.
Qed.

(** Every error the call surfaces: its own [InvalidDateError] and
    [APIError], or whatever the network layer raised.  No branch of the
    function raises a [RangeError] of its own. *)
Lemma getReservations_errors startDateTime endDateTime trace e :
  getReservations startDateTime endDateTime = (trace, Throw e) ->
  (exists message, e = InvalidDateError message /\ trace = []) \/
  (exists message, e = APIError message) \/
  (exists url, fetch url = Throw e) \/
  (exists url response, fetch url = Return response /\ json response = Throw e).
Proof.
  unfold JS.getReservations.
  rewrite (isValidDateTime_unfold LocalTZA parse_other startDateTime).
  rewrite (isValidDateTime_unfold LocalTZA parse_other endDateTime).
  destruct (match read_fields startDateTime with Some _ => _ | None => _ end);
    [destruct (match read_fields endDateTime with Some _ => _ | None => _ end)|];
    cbn [io_lift io_bind io_ret negb app io_throw].
  2,3: intros [= <- <-]; left; eexists; split; reflexivity.
  set (url := (apiUri ++ "/get-reservations?startDateTime=" ++ _)%string).
  unfold io_catch, io_emit. cbn [io_bind io_lift app].
  destruct (fetch url) as [response|e'] eqn:F; cbn [io_throw app].
  - destruct (ok response); cbn [negb io_throw io_bind io_lift app].
    + destruct (json response) as [data|e'] eqn:J; cbn [app io_throw io_bind].
      * discriminate.
      * intros [= <- <-]. right. right. right. exists url, response. auto.
    + intros [= <- <-]. right. left. eexists. reflexivity.
  - intros [= <- <-]. right. right. left. exists url. exact F.
Qed.

End Host.

End QueryFacts.


(* ================================================================== *)
(** * The specification of the date-time utilities and the query *)
(* ================================================================== *)

Module DateTime.
Import JS TimeFacts ValidatorFacts QueryFacts.

(** On a host with one fixed UTC offset no wall-clock reading is skipped,
    and the validator accepts exactly the well-formed strings. *)
Lemma isValidDateTime_fixed_offset (offset : Z) parse_other str :
  Z.abs offset <= msPerDay ->
  isValidDateTime (fun _ _ => offset) parse_other str = Return true <->
  exists f, read_fields str = Some f /\ well_formed f.
Proof.
  intros B. rewrite isValidDateTime_true by (intros; exact B).
  split.
  - intros (f & R & W & _). exists f. auto.
  - intros (f & R & W). exists f. split; [exact R|split; [exact W|]].
    unfold local_time_exists, LocalTime, UTC, msPerSecond. lia.
Qed.

(** C2, as amended.  On every host whose UTC offsets stay within a day,
    and for every input string: [isValidDateTime] accepts the string if and
    only if it matches the digit pattern YYYY-MM-DDTHH:MM:SS with month in
    1-12, hour in 0-23, minute in {0, 15, 30, 45}, second 0 and a real
    calendar date, and the host's clock shows that date-time (it is not
    skipped by a clock change).  2024-02-30T12:00:00 matches the digit
    pattern and is rejected on every host. *)
Theorem isValidDateTime_accepts :
  forall (LocalTZA : Z -> bool -> Z) (parse_other : string -> number),
    (forall t u, Z.abs (LocalTZA t u) <= msPerDay) ->
    (forall str,
        isValidDateTime LocalTZA parse_other str = Return true <->
        exists f, read_fields str = Some f /\ well_formed f /\
                  local_time_exists LocalTZA (local_time_of f))
    /\ regex_test datetime_regex "2024-02-30T12:00:00" = true
    /\ isValidDateTime LocalTZA parse_other "2024-02-30T12:00:00" = Return false.
Proof.
  intros LocalTZA parse_other Zone. split; [|split].
  - intros str. apply isValidDateTime_true. exact Zone.
  - reflexivity.
  - destruct (isValidDateTime LocalTZA parse_other "2024-02-30T12:00:00")
      as [[|]|e] eqn:E.
    + apply isValidDateTime_true in E; [|exact Zone].
      destruct E as (f & R & (_ & _ & _ & _ & D) & _).
      vm_compute in R. injection R as <-. vm_compute in D.
      destruct D as [_ D]. exfalso. apply D. reflexivity.
    + reflexivity.
    + rewrite isValidDateTime_unfold in E. discriminate E.
Qed.

(** The hypothesis of [isValidDateTime_accepts] at a UTC host, and a
    date-time it accepts there. *)
Lemma isValidDateTime_accepts_witness :
  (forall t u, Z.abs (utc t u) <= msPerDay) /\
  isValidDateTime utc strict_parse "2024-06-01T18:00:00" = Return true.
Proof.
  assert (Zone : forall t u, Z.abs (utc t u) <= msPerDay)
    by (intros; unfold utc, msPerDay; cbn; lia).
  split; [exact Zone|].
  apply (proj1 (isValidDateTime_accepts utc strict_parse Zone)).
  exists (mkFields 2024 6 1 18 0 0).
  split; [reflexivity|]. split.
  - unfold well_formed. cbn. lia.
  - unfold local_time_exists, LocalTime, UTC, utc, msPerSecond. lia.
Defined.

(** C2, as stated, fails: on a host in New York, 2024-03-10T02:00:00
    matches the digit pattern with month, hour, minute and second in range
    and names a real calendar date, and the validator rejects it (the hour
    from 02:00 to 03:00 is skipped that night, so [getHours] answers 3). *)
Lemma isValidDateTime_rejects_skipped_hour :
  (exists f, read_fields "2024-03-10T02:00:00" = Some f /\ well_formed f) /\
  isValidDateTime new_york_2024 strict_parse "2024-03-10T02:00:00" = Return false.
Proof.
  split; [|vm_compute; reflexivity].
  exists (mkFields 2024 3 10 2 0 0). split; [reflexivity|].
  unfold well_formed. cbn. lia.
Qed.

(** C9.  For date-time strings [t], [s], [e] that parse to valid dates (at
    the instants [a], [b], [c]), [isDateTimeInRange] returns, and returns
    true if and only if [b <= a] and [a <= c]; both endpoints belong to the
    range. *)
Theorem isDateTimeInRange_inclusive :
  forall (LocalTZA : Z -> bool -> Z) (parse_other : string -> number)
         (t s e : string) (a b c : Z),
    new_Date LocalTZA parse_other t = Num a ->
    new_Date LocalTZA parse_other s = Num b ->
    new_Date LocalTZA parse_other e = Num c ->
    (exists r, isDateTimeInRange LocalTZA parse_other t s e = Return r) /\
    (isDateTimeInRange LocalTZA parse_other t s e = Return true <-> b <= a /\ a <= c) /\
    (b <= c ->
     isDateTimeInRange LocalTZA parse_other s s e = Return true /\
     isDateTimeInRange LocalTZA parse_other e s e = Return true).
Proof.
  intros LocalTZA parse_other t s e a b c Ht Hs He.
  rewrite (isDateTimeInRange_Num _ _ t s e a b c Ht Hs He).
  rewrite (isDateTimeInRange_Num _ _ s s e b b c Hs Hs He).
  rewrite (isDateTimeInRange_Num _ _ e s e c b c He Hs He).
  split; [eexists; reflexivity|]. split.
  - split.
    + intros [= H]. apply andb_true_iff in H. rewrite !Z.leb_le in H. exact H.
    + intros H. f_equal. apply andb_true_iff. rewrite !Z.leb_le. exact H.
  - intros H. split; f_equal; apply andb_true_iff; rewrite !Z.leb_le; lia.
Qed.

(** [isDateTimeInRange_inclusive] at a UTC host: 18:00 lies in the range
    from 18:00 to 20:00 of the same day. *)
Lemma isDateTimeInRange_inclusive_witness :
  isDateTimeInRange utc strict_parse
    "2024-06-01T18:00:00" "2024-06-01T18:00:00" "2024-06-01T20:00:00" = Return true.
Proof.
  apply (proj1 (proj2 (isDateTimeInRange_inclusive utc strict_parse
           "2024-06-01T18:00:00" "2024-06-01T18:00:00" "2024-06-01T20:00:00"
           1717264800000 1717264800000 1717272000000
           eq_refl eq_refl eq_refl))).
  lia.
Defined.

(** C10.  [isValidDateTime] returns a boolean on every input string and
    never throws, on the empty string and on text that is no date at all
    too; [isDateTimeInRange] throws [InvalidDateError] as soon as one of its
    three strings does not parse. *)
Theorem isValidDateTime_never_throws :
  forall (LocalTZA : Z -> bool -> Z) (parse_other : string -> number),
    (forall str, exists b, isValidDateTime LocalTZA parse_other str = Return b) /\
    isValidDateTime LocalTZA parse_other "" = Return false /\
    isValidDateTime LocalTZA parse_other "next Tuesday at noon" = Return false /\
    (forall t s e,
        new_Date LocalTZA parse_other t = NaN \/
        new_Date LocalTZA parse_other s = NaN \/
        new_Date LocalTZA parse_other e = NaN ->
        isDateTimeInRange LocalTZA parse_other t s e
        = Throw (InvalidDateError "Invalid datetime string provided")).
Proof.
  intros LocalTZA parse_other. repeat split.
  - intros str. rewrite isValidDateTime_unfold. eexists. reflexivity.
  - intros t s e. apply isDateTimeInRange_NaN.
Qed.

(** [isValidDateTime_never_throws] at a UTC host: the range check throws on
    the empty string. *)
Lemma isValidDateTime_never_throws_witness :
  isDateTimeInRange utc strict_parse "" "2024-06-01T18:00:00" "2024-06-01T20:00:00"
  = Throw (InvalidDateError "Invalid datetime string provided").
Proof.
  apply (proj2 (proj2 (proj2 (isValidDateTime_never_throws utc strict_parse)))).
  left. reflexivity.
Defined.

(** C5, at the failing input.  A range that starts in the year 9999 and
    ends in the year 0000 passes the format check, is sent to the data
    source and the call completes: no out-of-range error exists.  The other
    two kinds are there: a malformed boundary throws [InvalidDateError]
    before anything is fetched, and an unreachable data source surfaces as
    the error [fetch] raised. *)
Theorem getReservations_no_range_error :
  getReservations utc strict_parse reachable "http://127.0.0.1:5000"
    "9999-12-31T23:45:00" "0000-01-01T00:00:00"
  = ([Fetch "http://127.0.0.1:5000/get-reservations?startDateTime=9999-12-31T23:45:00&endDateTime=0000-01-01T00:00:00";
      ConsoleLog "[]"],
     Return tt)
  /\ getReservations utc strict_parse reachable "http://127.0.0.1:5000"
       "2024-06-01T18:00:00" "2024-06-01 20:00"
     = ([], Throw (InvalidDateError
          "One of the given dates is not valid. Given [startDateTime = 2024-06-01T18:00:00], [endDateTime = 2024-06-01 20:00]."))
  /\ getReservations utc strict_parse unreachable "http://127.0.0.1:5000"
       "2024-06-01T18:00:00" "2024-06-01T20:00:00"
     = ([Fetch "http://127.0.0.1:5000/get-reservations?startDateTime=2024-06-01T18:00:00&endDateTime=2024-06-01T20:00:00";
         ConsoleError "Unexpected error in getReservations()" (TypeError "Failed to fetch")],
        Throw (TypeError "Failed to fetch")).
Proof. repeat split; vm_compute; reflexivity. Qed.

End DateTime.

(* ================================================================== *)
(** * Facts about the schemas *)
(* ================================================================== *)

Module SchemaFacts.
Import Sqlite.

(** ** GLOB on known values *)

Example GLOB_wildcards :
  GLOB "abc.txt" "*.txt" = true /\
  GLOB "abc.txt" "a?c*[s-u]" = true /\
  GLOB "abc.txt" "a?c*[^s-u]" = false /\
  GLOB "a]" "a[]-]" = true /\
  GLOB "7" "[0-9]" = true /\
  GLOB "#" "[0-9]" = false /\
  GLOB "7" "#" = false /\
  GLOB "(555) 123-4567"
       "([0-9][0-9][0-9]) [0-9][0-9][0-9]-[0-9][0-9][0-9][0-9]" = true.
Proof. repeat split; reflexivity. Qed.

(** ** INSERT, step by step *)

Lemma require_Ok {A} (b : bool) v (k : result A) x :
  require b v k = Ok x <-> b = true /\ k = Ok x.
Proof.
  unfold require. destruct b; split; intros H; try discriminate; intuition congruence.
Qed.

Lemma require_Failed {A} (b : bool) v (k : result A) :
  b = false -> require b v k = Failed v.
Proof. intros ->. reflexivity. Qed.

Lemma require_fails {A} (b : bool) v (k : result A) :
  (exists w, k = Failed w) -> exists w, require b v k = Failed w.
Proof.
  intros [w H]. unfold require. destruct b; [exists w; exact H|exists v; reflexivity].
Qed.

(** A uniqueness test by a comparison [same] that decides equality of the
    keys [key] finds a row exactly when the key is already in the table. *)
Lemma has_key {A K} (key : A -> K) (same : A -> A -> bool) :
  (forall a b, same a b = true <-> key a = key b) ->
  forall rows r, has (same r) rows = true <-> In (key r) (map key rows).
Proof.
  intros S rows r. unfold has. rewrite existsb_exists, in_map_iff.
  split; intros (x & H1 & H2); exists x.
  - apply S in H2. auto.
  - split; [exact H2|]. apply S. auto.
Qed.

Lemma NoDup_insert {A K} (key : A -> K) (same : A -> A -> bool) :
  (forall a b, same a b = true <-> key a = key b) ->
  forall rows r,
    NoDup (map key rows) -> has (same r) rows = false -> NoDup (map key (r :: rows)).
Proof.
  intros S rows r N H. cbn [map]. constructor; [|exact N].
  intros I. apply (has_key key same S) in I. congruence.
Qed.

(** ** The keys *)

Lemma Customer_same_identity a b :
  Customer.same_identity a b = true <-> customer_identity a = customer_identity b.
Proof.
  unfold Customer.same_identity, customer_identity.
  rewrite !andb_true_iff, !String.eqb_eq. split.
  - intros ((-> & ->) & ->). reflexivity.
  - intros [= -> -> ->]. auto.
Qed.

Lemma Original_same_slot a b :
  Original.Reservation.same_slot a b = true <-> original_slot a = original_slot b.
Proof.
  unfold Original.Reservation.same_slot, original_slot.
  rewrite andb_true_iff, Z.eqb_eq, String.eqb_eq. split.
  - intros (-> & ->). reflexivity.
  - intros [= -> ->]. auto.
Qed.

Lemma Refined_same_slot a b :
  Refined.Reservation.same_slot a b = true <-> refined_slot a = refined_slot b.
Proof.
  unfold Refined.Reservation.same_slot, refined_slot.
  rewrite andb_true_iff, Z.eqb_eq, String.eqb_eq. split.
  - intros (-> & ->). reflexivity.
  - intros [= -> ->]. auto.
Qed.

(** ** What a successful INSERT has checked *)

Lemma Customer_insert_Ok rows r rows' :
  Customer.insert rows r = Ok rows' <->
  Customer.check r = true /\
  has (fun x => Customer.customer_id x =? Customer.customer_id r) rows = false /\
  has (Customer.same_identity r) rows = false /\
  rows' = r :: rows.
Proof.
  unfold Customer.insert. rewrite !require_Ok, !negb_true_iff.
  split; [intros (C & P & U & [= <-])|intros (C & P & U & ->)]; auto.
Qed.

Lemma Original_insert_Ok customers sets rows r rows' :
  Original.Reservation.insert customers sets rows r = Ok rows' ->
  Original.Reservation.check r = true /\
  has (Original.Reservation.same_slot r) rows = false /\
  rows' = r :: rows.
Proof.
  unfold Original.Reservation.insert. rewrite !require_Ok, !negb_true_iff.
  intros (C & _ & U & _ & _ & [= <-]). auto.
Qed.

Lemma Refined_insert_Ok customers rows r rows' :
  Refined.Reservation.insert customers rows r = Ok rows' ->
  Refined.Reservation.check r = true /\
  has (Refined.Reservation.same_slot r) rows = false /\
  rows' = r :: rows.
Proof.
  unfold Refined.Reservation.insert. rewrite !require_Ok, !negb_true_iff.
  intros (C & _ & U & _ & _ & [= <-]). auto.
Qed.

(** ** The geometry check, as written *)

Lemma real_lt_spec a b : real_lt a b = true <-> (a < b)%Q.
Proof.
  unfold real_lt. rewrite negb_true_iff. split.
  - intros H. apply Qnot_le_lt. intros L. apply Qle_bool_iff in L. congruence.
  - intros H. destruct (Qle_bool b a) eqn:E; [|reflexivity].
    apply Qle_bool_iff in E. exfalso. exact (Qlt_not_le _ _ H E).
Qed.

(** The CHECK of the table compares [bl_x] with [br_y], not with [br_x]. *)
Lemma Table_check_spec t :
  Table.check t = true <->
  (Table.tl_x t < Table.tr_x t)%Q /\ (Table.bl_x t < Table.br_y t)%Q /\
  (Table.bl_y t < Table.tl_y t)%Q /\ (Table.br_y t < Table.tr_y t)%Q.
Proof.
  unfold Table.check. rewrite !andb_true_iff, !real_lt_spec. tauto.
Qed.

(** ** The two date-time patterns *)

Lemma digit_set c :
  xorb (existsb (in_range c) [("0"%char, "9"%char); ("0"%char, "0"%char)]) false
  = Shape.is_digit c.
Proof. destruct c as [[] [] [] [] [] [] [] []]; reflexivity. Qed.

Lemma glob_items_shape items atoms :
  Forall2 stands_for items atoms ->
  forall x, glob_items items x = Shape.matches atoms x.
Proof.
  induction 1 as [|i a items atoms S _ IH]; intros x.
  - destruct x; reflexivity.
  - destruct S; destruct x as [|k x]; try reflexivity.
    + cbn [glob_items Shape.matches Shape.atom_match]. rewrite digit_set, IH. reflexivity.
    + cbn [glob_items Shape.matches Shape.atom_match]. rewrite IH. reflexivity.
Qed.

(** The pattern of the refined schema admits exactly the strings of the
    digit pattern YYYY-MM-DD HH:MM:SS. *)
Lemma Refined_glob_shape x :
  GLOB x Refined.Reservation.datetime_glob = Shape.matches iso_shape x.
Proof.
  unfold GLOB. apply glob_items_shape.
  vm_compute. repeat constructor.
Qed.

Lemma glob_chars p x :
  glob_items (map Char (list_ascii_of_string p)) x = String.eqb x p.
Proof.
  revert x. induction p as [|c p IH]; intros [|k x]; try reflexivity.
  cbn [list_ascii_of_string map glob_items String.eqb]. rewrite IH. reflexivity.
Qed.

(** The pattern of the original schema has no wildcard: [#] stands for
    itself, and the one string it admits is the pattern. *)
Lemma Original_glob_literal x :
  GLOB x Original.Reservation.datetime_glob = true <-> x = "####-##-## ##:##:##".
Proof.
  unfold GLOB.
  change (parse Top Original.Reservation.datetime_glob)
    with (map Char (list_ascii_of_string "####-##-## ##:##:##")).
  rewrite glob_chars. apply String.eqb_eq.
Qed.

End SchemaFacts.

(* ================================================================== *)
(** * The specification of the schemas *)
(* ================================================================== *)

Module Schema.
Import Sqlite Scenarios SchemaFacts.

(** C1, at the failing input.  Two distinct reservations (1 and 2, of two
    customers) are both recorded at Table 5 for the identical date-time:
    the primary key of ReservationAtTable holds the reservation too, so
    the pair (table_number, reservation_datetime) is not unique. *)
Theorem ReservationAtTable_records_two_at_once :
  double_booking = Ok [at_table 2 5; at_table 1 5] /\
  occupancy (at_table 2 5) = occupancy (at_table 1 5) /\
  ~ NoDup (map occupancy [at_table 2 5; at_table 1 5]).
Proof.
  split; [vm_compute; reflexivity|]. split; [reflexivity|].
  intros N. inversion N as [|k l NI _]. apply NI. left. reflexivity.
Qed.

(** C3, at the failing inputs.  A table whose corners break
    [bl.x < br.x] is stored, and the table of Scenario A, whose corners
    satisfy the four inequalities, is refused: the CHECK of both schemas
    compares [bl_x] with [br_y]. *)
Theorem Table_check_compares_wrong_corner :
  Table.insert [] table_crossed = Ok [table_crossed] /\
  ~ corner_ordering table_crossed /\
  corner_ordering table1_scenarioA /\
  Table.insert [] table1_scenarioA = Failed CHECK.
Proof.
  split; [reflexivity|]. split; [|split; [|reflexivity]].
  - intros (_ & H & _). vm_compute in H. discriminate H.
  - unfold corner_ordering. repeat split.
Qed.

(** C4, at the failing input.  In Scenario D the second placement, of
    Table 5 into section 2 of layout A, is accepted like the other two:
    Table 5 ends up in two sections of layout A. *)
Theorem TableInSection_allows_two_sections :
  scenarioD
  = Ok [TableInSection.mk 5 2 1; TableInSection.mk 5 1 2; TableInSection.mk 5 1 1] /\
  placement (TableInSection.mk 5 1 2) = placement (TableInSection.mk 5 1 1) /\
  TableInSection.section_number (TableInSection.mk 5 1 2)
  <> TableInSection.section_number (TableInSection.mk 5 1 1).
Proof.
  split; [vm_compute; reflexivity|]. split; [reflexivity|]. discriminate.
Qed.

(** C6.  In both schema variants: an INSERT of a reservation whose
    (customer_id, reservation_datetime) is already in the table fails, and
    every successful INSERT keeps the pairs of the table free of
    duplicates. *)
Theorem one_reservation_per_customer_and_datetime :
  (forall customers sets rows r,
      In (original_slot r) (map original_slot rows) ->
      exists v, Original.Reservation.insert customers sets rows r = Failed v) /\
  (forall customers sets rows r rows',
      NoDup (map original_slot rows) ->
      Original.Reservation.insert customers sets rows r = Ok rows' ->
      NoDup (map original_slot rows')) /\
  (forall customers rows r,
      In (refined_slot r) (map refined_slot rows) ->
      exists v, Refined.Reservation.insert customers rows r = Failed v) /\
  (forall customers rows r rows',
      NoDup (map refined_slot rows) ->
      Refined.Reservation.insert customers rows r = Ok rows' ->
      NoDup (map refined_slot rows')).
Proof.
  repeat split.
  - intros customers sets rows r I.
    apply (has_key original_slot _ Original_same_slot) in I.
    unfold Original.Reservation.insert.
    do 2 apply require_fails. rewrite I. eexists. reflexivity.
  - intros customers sets rows r rows' N H.
    apply Original_insert_Ok in H. destruct H as (_ & U & ->).
    exact (NoDup_insert original_slot _ Original_same_slot rows r N U).
  - intros customers rows r I.
    apply (has_key refined_slot _ Refined_same_slot) in I.
    unfold Refined.Reservation.insert.
    do 2 apply require_fails. rewrite I. eexists. reflexivity.
  - intros customers rows r rows' N H.
    apply Refined_insert_Ok in H. destruct H as (_ & U & ->).
    exact (NoDup_insert refined_slot _ Refined_same_slot rows r N U).
Qed.

(** [one_reservation_per_customer_and_datetime] on the refined schema:
    customer 1 holds reservation 1 for the evening; a second reservation of
    customer 1 for that date-time is refused, and the table with
    reservation 1 in it has no duplicate pair. *)
Lemma one_reservation_per_customer_and_datetime_witness :
  (exists v, Refined.Reservation.insert [ana_silva] [booking 1 1] (booking 2 1) = Failed v) /\
  NoDup (map refined_slot [booking 1 1]).
Proof.
  split.
  - apply (proj1 (proj2 (proj2 one_reservation_per_customer_and_datetime))).
    left. reflexivity.
  - apply (proj2 (proj2 (proj2 one_reservation_per_customer_and_datetime))
             [ana_silva] [] (booking 1 1)).
    + constructor.
    + reflexivity.
Defined.

(** C7.  A customer whose (first_name, last_name, phone_number) is already
    in the table is refused; every successful INSERT keeps the triples free
    of duplicates; and after a customer [a], a customer [b] with the phone
    number of [a] and another last name is stored, provided its id and its
    triple are new. *)
Theorem customer_identity_is_the_triple :
  (forall rows r,
      In (customer_identity r) (map customer_identity rows) ->
      exists v, Customer.insert rows r = Failed v) /\
  (forall rows r rows',
      NoDup (map customer_identity rows) ->
      Customer.insert rows r = Ok rows' ->
      NoDup (map customer_identity rows')) /\
  (forall rows a b rows1,
      Customer.insert rows a = Ok rows1 ->
      Customer.phone_number b = Customer.phone_number a ->
      Customer.last_name b <> Customer.last_name a ->
      ~ In (Customer.customer_id b) (map Customer.customer_id rows1) ->
      ~ In (customer_identity b) (map customer_identity rows) ->
      Customer.insert rows1 b = Ok (b :: rows1)).
Proof.
  repeat split.
  - intros rows r I.
    apply (has_key customer_identity _ Customer_same_identity) in I.
    unfold Customer.insert. do 2 apply require_fails. rewrite I.
    eexists. reflexivity.
  - intros rows r rows' N H.
    apply Customer_insert_Ok in H. destruct H as (_ & _ & U & ->).
    exact (NoDup_insert customer_identity _ Customer_same_identity rows r N U).
  - intros rows a b rows1 Ha Phone Last Id Triple.
    apply Customer_insert_Ok in Ha. destruct Ha as (Ca & _ & _ & ->).
    apply Customer_insert_Ok. repeat split.
    + unfold Customer.check in *. rewrite Phone. exact Ca.
    + destruct (has _ (a :: rows)) eqn:E; [|reflexivity].
      exfalso. apply Id.
      apply (has_key Customer.customer_id
               (fun r x => Customer.customer_id x =? Customer.customer_id r)).
      * intros x y. rewrite Z.eqb_eq. split; congruence.
      * exact E.
    + destruct (has _ (a :: rows)) eqn:E; [|reflexivity].
      exfalso.
      apply (has_key customer_identity _ Customer_same_identity) in E.
      destruct E as [E|E]; [|exact (Triple E)].
      apply Last. unfold customer_identity in E. congruence.
Qed.

(** [customer_identity_is_the_triple] on Scenario E: after Ana Silva, Ana
    Souza with the same phone number is stored; a third customer with the
    triple of Ana Silva is refused. *)
Lemma customer_identity_is_the_triple_witness :
  Customer.insert [ana_silva] ana_souza = Ok [ana_souza; ana_silva] /\
  (exists v, Customer.insert [ana_souza; ana_silva] ana_silva_again = Failed v).
Proof.
  split.
  - apply (proj2 (proj2 customer_identity_is_the_triple) [] ana_silva ana_souza).
    + reflexivity.
    + reflexivity.
    + discriminate.
    + cbn. intros [H|[]]. discriminate H.
    + cbn. intros [].
  - apply (proj1 customer_identity_is_the_triple).
    right. left. reflexivity.
Defined.

(** C8, at the failing input.  The original schema refuses the date-time
    2024-06-01 18:00:00, which the refined schema admits; the one string
    the original pattern admits is the pattern itself, which the refined
    schema refuses.  The refined pattern admits exactly the digit pattern
    YYYY-MM-DD HH:MM:SS. *)
Theorem datetime_globs_differ :
  GLOB evening Original.Reservation.datetime_glob = false /\
  GLOB evening Refined.Reservation.datetime_glob = true /\
  (forall x, GLOB x Original.Reservation.datetime_glob = true
             <-> x = "####-##-## ##:##:##") /\
  GLOB "####-##-## ##:##:##" Refined.Reservation.datetime_glob = false /\
  (forall x, GLOB x Refined.Reservation.datetime_glob = Shape.matches iso_shape x).
Proof.
  split; [reflexivity|]. split; [reflexivity|].
  split; [exact Original_glob_literal|].
  split; [reflexivity|exact Refined_glob_shape].
Qed.

End Schema.


(* ================================================================== *)
(** * The theme switch *)
(* ================================================================== *)

Module ThemeFacts.
Import Theme.

(** ** Stores *)

Lemma get_set_same s k v : store_get (store_set s k v) k = Some v.
Proof.
  induction s as [|[k' v'] s IH]; cbn [store_set store_get].
  - rewrite String.eqb_refl. reflexivity.
  - destruct (String.eqb k' k) eqn:E; cbn [store_get].
    + rewrite String.eqb_refl. reflexivity.
    + rewrite E. exact IH.
Qed.

Lemma get_set_other s k v k' :
  k' <> k -> store_get (store_set s k v) k' = store_get s k'.
Proof.
  intros N. apply String.eqb_neq in N.
  induction s as [|[k0 v0] s IH]; cbn [store_set store_get].
  - rewrite String.eqb_sym, N. reflexivity.
  - destruct (String.eqb k0 k) eqn:E; cbn [store_get].
    + apply String.eqb_eq in E. subst k0. rewrite String.eqb_sym, N.
      reflexivity.
    + rewrite IH. reflexivity.
Qed.

Lemma get_remove_same s k : store_get (store_remove s k) k = None.
Proof.
  induction s as [|[k' v'] s IH]; cbn [store_remove store_get]; [reflexivity|].
  destruct (String.eqb k' k) eqn:E; cbn [store_get]; [exact IH|].
  rewrite E. exact IH.
Qed.

Lemma get_remove_other s k k' :
  k' <> k -> store_get (store_remove s k) k' = store_get s k'.
Proof.
  intros N. apply String.eqb_neq in N.
  induction s as [|[k0 v0] s IH]; cbn [store_remove store_get]; [reflexivity|].
  destruct (String.eqb k0 k) eqn:E; cbn [store_get].
  - apply String.eqb_eq in E. subst k0. rewrite String.eqb_sym, N. exact IH.
  - rewrite IH. reflexivity.
Qed.

Lemma remove_absent s k : store_get s k = None -> store_remove s k = s.
Proof.
  induction s as [|[k' v'] s IH]; cbn [store_remove store_get]; [reflexivity|].
  destruct (String.eqb k' k); [discriminate|].
  intros H. rewrite (IH H). reflexivity.
Qed.

Lemma remove_remove s k : store_remove (store_remove s k) k = store_remove s k.
Proof. apply remove_absent, get_remove_same. Qed.

Lemma remove_set s k v : store_remove (store_set s k v) k = store_remove s k.
Proof.
  induction s as [|[k' v'] s IH]; cbn [store_set store_remove].
  - rewrite String.eqb_refl. reflexivity.
  - destruct (String.eqb k' k) eqn:E; cbn [store_remove].
    + rewrite String.eqb_refl. reflexivity.
    + rewrite E, IH. reflexivity.
Qed.

Lemma set_set s k v w : store_set (store_set s k v) k w = store_set s k w.
Proof.
  induction s as [|[k' v'] s IH]; cbn [store_set].
  - rewrite String.eqb_refl. reflexivity.
  - destruct (String.eqb k' k) eqn:E; cbn [store_set].
    + rewrite String.eqb_refl. reflexivity.
    + rewrite E, IH. reflexivity.
Qed.

(** ** The functions of Theme.js, field by field *)

Lemma page_eta p : mkPage (localStorage p) (root p) (change_listeners p) = p.
Proof. destruct p; reflexivity. Qed.

Lemma applyThemeMode_localStorage mode p :
  localStorage (applyThemeMode mode p) = localStorage p.
Proof.
  unfold applyThemeMode.
  destruct (String.eqb mode "light"), (String.eqb mode "dark"); reflexivity.
Qed.

Lemma applyThemeMode_listeners mode p :
  change_listeners (applyThemeMode mode p) = change_listeners p.
Proof.
  unfold applyThemeMode.
  destruct (String.eqb mode "light"), (String.eqb mode "dark"); reflexivity.
Qed.

Lemma applyThemeMode_root mode p :
  root (applyThemeMode mode p)
  = match attribute_of mode with
    | Some v => store_set (store_remove (root p) "data-theme") "data-theme" v
    | None => store_remove (root p) "data-theme"
    end.
Proof.
  unfold applyThemeMode, attribute_of.
  destruct (String.eqb mode "light"); [reflexivity|].
  destruct (String.eqb mode "dark"); reflexivity.
Qed.

Lemma applyThemeMode_attribute mode p :
  store_get (root (applyThemeMode mode p)) "data-theme" = attribute_of mode.
Proof.
  rewrite applyThemeMode_root.
  destruct (attribute_of mode); [apply get_set_same|apply get_remove_same].
Qed.

Lemma applyThemeMode_other_attributes mode p name :
  name <> "data-theme" ->
  store_get (root (applyThemeMode mode p)) name = store_get (root p) name.
Proof.
  intros N. rewrite applyThemeMode_root.
  destruct (attribute_of mode);
    rewrite ?get_set_other by exact N; apply get_remove_other; exact N.
Qed.

Lemma attribute_of_falsy mode :
  attribute_of (if String.eqb mode "" then "auto" else mode) = attribute_of mode.
Proof.
  destruct (String.eqb mode "") eqn:E; [|reflexivity].
  apply String.eqb_eq in E. subst mode. reflexivity.
Qed.

Lemma getTheme_setTheme mode p :
  getTheme (setTheme mode p) = if String.eqb mode "" then "auto" else mode.
Proof.
  unfold getTheme, setTheme. rewrite applyThemeMode_localStorage.
  cbn [localStorage]. rewrite get_set_same. reflexivity.
Qed.

Lemma setTheme_in_step mode p : in_step (setTheme mode p).
Proof.
  unfold in_step. rewrite getTheme_setTheme, attribute_of_falsy.
  unfold setTheme. apply applyThemeMode_attribute.
Qed.

Lemma page_ext (q q' : page) :
  localStorage q = localStorage q' -> root q = root q' ->
  change_listeners q = change_listeners q' -> q = q'.
Proof. destruct q, q'. cbn. congruence. Qed.

Lemma remove_applyThemeMode mode p :
  store_remove (root (applyThemeMode mode p)) "data-theme"
  = store_remove (root p) "data-theme".
Proof.
  rewrite applyThemeMode_root.
  destruct (attribute_of mode); rewrite ?remove_set; apply remove_remove.
Qed.

(** A second [setTheme] wipes out the first. *)
Lemma setTheme_absorbs mode mode' p :
  setTheme mode' (setTheme mode p) = setTheme mode' p.
Proof.
  apply page_ext; unfold setTheme; cbv zeta.
  - repeat (rewrite ?applyThemeMode_localStorage; cbn [localStorage]).
    apply set_set.
  - rewrite !(applyThemeMode_root mode'). cbn [root].
    rewrite remove_applyThemeMode. reflexivity.
  - repeat (rewrite ?applyThemeMode_listeners; cbn [change_listeners]).
    reflexivity.
Qed.

Lemma initTheme_localStorage p : localStorage (initTheme p) = localStorage p.
Proof. unfold initTheme, addEventListener. cbn [localStorage]. apply applyThemeMode_localStorage. Qed.

Lemma initTheme_listeners p :
  change_listeners (initTheme p) = (change_listeners p ++ [ReapplyWhenAuto])%list.
Proof.
  unfold initTheme, addEventListener. cbn [change_listeners].
  rewrite applyThemeMode_listeners. reflexivity.
Qed.

Lemma getTheme_applyThemeMode mode p : getTheme (applyThemeMode mode p) = getTheme p.
Proof. unfold getTheme. rewrite applyThemeMode_localStorage. reflexivity. Qed.

Lemma getTheme_toggleTheme p :
  getTheme (toggleTheme p) = if String.eqb (getTheme p) "dark" then "light" else "dark".
Proof.
  unfold toggleTheme. rewrite getTheme_setTheme.
  destruct (String.eqb (getTheme p) "dark"); reflexivity.
Qed.

Lemma run_in_step l p : in_step p -> run l p = p.
Proof.
  intros H. destruct l. cbn [run].
  destruct (String.eqb (getTheme p) "auto") eqn:E; [|reflexivity].
  apply String.eqb_eq in E. unfold in_step in H. rewrite E in H.
  unfold applyThemeMode. cbn [String.eqb Ascii.eqb Bool.eqb].
  unfold removeAttribute. rewrite (remove_absent _ _ H). apply page_eta.
Qed.

End ThemeFacts.

(* ================================================================== *)
(** * Properties of the theme switch and of the theme button *)
(* ================================================================== *)

Module ThemeProperties.
Import Theme App ThemeFacts.

(** X1.  [getTheme] after [setTheme(mode)] gives [mode] back, except for
    the empty string, which is stored and read back as "auto"; no other
    key of [localStorage] changes. *)
Theorem setTheme_getTheme_round_trip :
  forall (mode : string) (p : page),
    getTheme (setTheme mode p) = (if String.eqb mode "" then "auto" else mode) /\
    store_get (localStorage (setTheme mode p)) THEME_KEY = Some mode /\
    (forall key, key <> THEME_KEY ->
       store_get (localStorage (setTheme mode p)) key = store_get (localStorage p) key).
Proof.
  intros mode p. split; [apply getTheme_setTheme|].
  unfold setTheme. rewrite applyThemeMode_localStorage. cbn [localStorage].
  split; [apply get_set_same|].
  intros key N. apply get_set_other. exact N.
Qed.

(** X2.  After [setTheme(mode)] the root element carries
    [data-theme="light"] or [data-theme="dark"] for these two modes and no
    [data-theme] attribute for every other mode, whatever it carried
    before; its other attributes are untouched. *)
Theorem setTheme_sets_data_theme :
  forall (mode : string) (p : page),
    store_get (root (setTheme mode p)) "data-theme" = attribute_of mode /\
    (forall name, name <> "data-theme" ->
       store_get (root (setTheme mode p)) name = store_get (root p) name).
Proof.
  intros mode p. unfold setTheme. split.
  - apply applyThemeMode_attribute.
  - intros name N. rewrite applyThemeMode_other_attributes by exact N. reflexivity.
Qed.

(** X3.  [toggleTheme] leaves the theme "light" when it was "dark" and
    "dark" in every other case (auto, nothing stored, any other string):
    toggling never leads to "auto", and the root element carries the new
    theme. *)
Theorem toggleTheme_light_or_dark :
  forall p : page,
    getTheme (toggleTheme p)
    = (if String.eqb (getTheme p) "dark" then "light" else "dark") /\
    getTheme (toggleTheme p) <> "auto" /\
    store_get (root (toggleTheme p)) "data-theme" = Some (getTheme (toggleTheme p)).
Proof.
  intros p. rewrite getTheme_toggleTheme. split; [reflexivity|].
  unfold toggleTheme, setTheme. rewrite applyThemeMode_attribute.
  destruct (String.eqb (getTheme p) "dark"); split; reflexivity || discriminate.
Qed.

(** X4.  Three toggles leave the page exactly as one toggle does; two
    toggles give the theme back only when it was "light" or "dark". *)
Theorem toggleTheme_thrice :
  forall p : page,
    toggleTheme (toggleTheme (toggleTheme p)) = toggleTheme p /\
    (getTheme (toggleTheme (toggleTheme p)) = getTheme p <->
     getTheme p = "light" \/ getTheme p = "dark").
Proof.
  intros p. split.
  - assert (T : forall q, toggleTheme q
                = setTheme (if String.eqb (getTheme q) "dark" then "light" else "dark") q)
      by reflexivity.
    rewrite (T (toggleTheme (toggleTheme p))), !getTheme_toggleTheme.
    rewrite (T (toggleTheme p)), !getTheme_toggleTheme.
    rewrite (T p), !setTheme_absorbs.
    destruct (String.eqb (getTheme p) "dark"); reflexivity.
  - rewrite !getTheme_toggleTheme.
    destruct (String.eqb (getTheme p) "dark") eqn:D.
    + apply String.eqb_eq in D. rewrite D. cbn. split; auto.
    + cbn. apply String.eqb_neq in D. split.
      * intros <-. left. reflexivity.
      * intros [H|H]; [symmetry; exact H|contradiction].
Qed.

(** X5.  After [setTheme], [toggleTheme] or [initTheme], from any page,
    the root element shows the stored theme: [data-theme] is "light" or
    "dark" when that is the theme, and absent otherwise. *)
Theorem root_shows_stored_theme :
  forall (mode : string) (p : page),
    in_step (setTheme mode p) /\ in_step (toggleTheme p) /\ in_step (initTheme p).
Proof.
  intros mode p. split; [apply setTheme_in_step|].
  split; [apply setTheme_in_step|].
  unfold in_step, initTheme, addEventListener, getTheme. cbn [root localStorage].
  rewrite applyThemeMode_attribute, applyThemeMode_localStorage. reflexivity.
Qed.

(** X6.  On a page whose root element shows the stored theme, a change of
    the OS colour scheme changes nothing, however many listeners are
    registered: the listener only removes [data-theme] in "auto" mode,
    where it is absent already. *)
Theorem dispatch_change_changes_nothing :
  forall p : page, in_step p -> dispatch_change p = p.
Proof.
  intros p H. unfold dispatch_change.
  induction (change_listeners p) as [|l ls IH]; [reflexivity|].
  cbn [fold_left]. rewrite (run_in_step l p H). exact IH.
Qed.

(** [dispatch_change_changes_nothing] on a page where "dark" was chosen and
    [initTheme] ran twice. *)
Lemma dispatch_change_changes_nothing_witness :
  dispatch_change (initTheme (initTheme (mkPage [("ui.theme", "dark")] [] [])))
  = initTheme (initTheme (mkPage [("ui.theme", "dark")] [] [])).
Proof.
  apply (dispatch_change_changes_nothing
           (initTheme (initTheme (mkPage [("ui.theme", "dark")] [] [])))).
  reflexivity.
Defined.

(** X7.  [initTheme] never writes [localStorage], and every call adds one
    more listener: after [n] calls the page has [n] more listeners than
    before. *)
Theorem initTheme_adds_a_listener :
  forall (n : nat) (p : page),
    localStorage (Nat.iter n initTheme p) = localStorage p /\
    change_listeners (Nat.iter n initTheme p)
    = (change_listeners p ++ repeat ReapplyWhenAuto n)%list.
Proof.
  induction n as [|n IH]; intros p.
  - cbn. rewrite app_nil_r. auto.
  - destruct (IH p) as [L C]. rewrite Nat.iter_succ.
    rewrite initTheme_localStorage, initTheme_listeners, L, C.
    split; [reflexivity|].
    cbn [repeat]. rewrite <- app_assoc, <- repeat_cons. reflexivity.
Qed.

(** X8.  When the [theme] state of the component is the stored theme (as
    it is after mounting), a click on the theme button keeps it so and
    flips the icon. *)
Theorem handleToggle_flips_icon :
  forall c : component,
    theme c = getTheme (page_of c) ->
    theme (handleToggle c) = getTheme (page_of (handleToggle c)) /\
    theme_button (handleToggle c) <> theme_button c.
Proof.
  intros c S. split; [reflexivity|].
  unfold theme_button, handleToggle. cbn [theme page_of].
  rewrite getTheme_toggleTheme, S.
  destruct (String.eqb (getTheme (page_of c)) "dark"); cbn; discriminate.
Qed.

(** [handleToggle_flips_icon] on a freshly mounted component with nothing
    stored: the light icon turns into the dark one. *)
Lemma handleToggle_flips_icon_witness :
  theme_button (mount (mkPage [] [] [])) = MdLightMode /\
  theme_button (handleToggle (mount (mkPage [] [] []))) <> theme_button (mount (mkPage [] [] [])).
Proof.
  split; [reflexivity|].
  apply (handleToggle_flips_icon (mount (mkPage [] [] []))). reflexivity.
Defined.

(** X9.  The last [setTheme] wins: a call of [setTheme] leaves the page
    exactly as if no [setTheme] had come before it, so calling it twice
    with the same mode is calling it once. *)
Theorem setTheme_last_call_wins :
  forall (mode mode' : string) (p : page),
    setTheme mode' (setTheme mode p) = setTheme mode' p.
Proof. intros mode mode' p. apply setTheme_absorbs. Qed.

End ThemeProperties.

(* ================================================================== *)
(** * Calendar order and string order *)
(* ================================================================== *)

Module OrderFacts.
Import JS TimeFacts ValidatorFacts Notions.

Lemma days_in_month_range y m : 1 <= m <= 12 -> 28 <= days_in_month y m <= 31.
Proof.
  intros Hm. assert (A : 0 <= m - 1 <= 11) by lia.
  replace m with (m - 1 + 1) by lia. revert A. generalize (m - 1) as k. intros k A.
  unfold days_in_month.
  destruct (leap_year y); each_month k; month_const; lia.
Qed.

Lemma day_of_in_year f :
  1 <= f_month f <= 12 -> 1 <= f_day f <= days_in_month (f_year f) (f_month f) ->
  DayFromYear (f_year f) <= day_of f < DayFromYear (f_year f + 1).
Proof.
  intros Hm Hd. unfold day_of. rewrite MakeDay_in_year by lia.
  rewrite DayFromYear_succ, DaysInYear_leap.
  assert (Hm' : 0 <= f_month f - 1 <= 11) by lia.
  replace (f_month f) with (f_month f - 1 + 1) in Hd by lia.
  revert Hm' Hd. generalize (f_month f - 1) as m. intros m Hm' Hd.
  unfold days_in_month in Hd.
  destruct (leap_year (f_year f)); each_month m;
    cbv beta iota delta [DayFromMonth] in *; month_const; lia.
Qed.

Lemma DayFromYear_le y y' : y <= y' -> DayFromYear y <= DayFromYear y'.
Proof.
  intros H. destruct (Z.eq_dec y y') as [->|N]; [lia|].
  pose proof (DayFromYear_lt y y'). lia.
Qed.

Lemma day_of_same_year f g :
  f_year f = f_year g ->
  1 <= f_month f <= 12 -> 1 <= f_day f <= days_in_month (f_year f) (f_month f) ->
  1 <= f_month g <= 12 -> 1 <= f_day g <= days_in_month (f_year g) (f_month g) ->
  (day_of f <= day_of g <-> f_month f * 100 + f_day f <= f_month g * 100 + f_day g).
Proof.
  intros Y Hm Hd Hm' Hd'. unfold day_of. rewrite !MakeDay_in_year by lia.
  rewrite <- Y in *.
  assert (A : 0 <= f_month f - 1 <= 11) by lia.
  assert (B : 0 <= f_month g - 1 <= 11) by lia.
  replace (f_month f) with (f_month f - 1 + 1) in Hd |- * by lia.
  replace (f_month g) with (f_month g - 1 + 1) in Hd' |- * by lia.
  replace (f_month f - 1 + 1 - 1) with (f_month f - 1) by lia.
  replace (f_month g - 1 + 1 - 1) with (f_month g - 1) by lia.
  revert A B Hd Hd'. generalize (f_month f - 1) as m. generalize (f_month g - 1) as m'.
  intros m' m A B Hd Hd'. unfold days_in_month in *.
  destruct (leap_year (f_year f)); each_month m; each_month m';
    cbv beta iota delta [DayFromMonth] in *; month_const; lia.
Qed.

(** Real calendar days come in the order of their dates. *)
Lemma day_of_order f g :
  1 <= f_month f <= 12 -> 1 <= f_day f <= days_in_month (f_year f) (f_month f) ->
  1 <= f_month g <= 12 -> 1 <= f_day g <= days_in_month (f_year g) (f_month g) ->
  (day_of f <= day_of g <-> date_stamp f <= date_stamp g).
Proof.
  intros Hm Hd Hm' Hd'.
  pose proof (days_in_month_range (f_year f) (f_month f) Hm).
  pose proof (days_in_month_range (f_year g) (f_month g) Hm').
  pose proof (day_of_in_year f Hm Hd) as Bf.
  pose proof (day_of_in_year g Hm' Hd') as Bg.
  unfold date_stamp.
  destruct (Z.lt_trichotomy (f_year f) (f_year g)) as [L|[E|L]].
  - pose proof (DayFromYear_le (f_year f + 1) (f_year g)). lia.
  - pose proof (day_of_same_year f g E Hm Hd Hm' Hd'). lia.
  - pose proof (DayFromYear_le (f_year g + 1) (f_year f)). lia.
Qed.

(** Well-formed date-times come in the order of their fields. *)
Lemma local_time_order f g :
  well_formed f -> well_formed g ->
  (local_time_of f <= local_time_of g <-> stamp f <= stamp g).
Proof.
  intros (Mo & H & Mi & S & D) (Mo' & H' & Mi' & S' & D').
  apply minute_range in Mi, Mi'.
  pose proof (day_of_order f g Mo D Mo' D') as A.
  pose proof (day_of_order g f Mo' D' Mo D) as B.
  unfold local_time_of, MakeDate, MakeTime, stamp,
    msPerDay, msPerHour, msPerMinute, msPerSecond.
  fold (day_of f) (day_of g). lia.
Qed.

Lemma digit_compare c c' :
  Ascii.compare c c' = (digit_value c ?= digit_value c').
Proof.
  unfold Ascii.compare, digit_value, nat_of_ascii.
  rewrite !N_nat_Z, <- N2Z.inj_compare.
  rewrite <- !Z.add_opp_r, !(Z.add_comm _ (- 48)).
  symmetry. apply Z.add_compare_mono_l.
Qed.

Lemma compare_cons c s c' s' :
  String.compare (String c s) (String c' s')
  = match Ascii.compare c c' with Eq => String.compare s s' | ne => ne end.
Proof. reflexivity. Qed.

Lemma ascii_compare_refl c : Ascii.compare c c = Eq.
Proof. unfold Ascii.compare. apply N.compare_refl. Qed.

(** One character of a comparison of two date-time strings: the same
    separator on both sides, or two digits that decide the order unless
    they are equal. *)
Ltac compare_step :=
  rewrite compare_cons;
  first
    [ rewrite ascii_compare_refl
    | rewrite digit_compare;
      match goal with
      | |- context [ ?a ?= ?b ] =>
          destruct (Z.compare_spec a b);
          [ | symmetry; apply Z.compare_lt_iff; lia
            | symmetry; apply Z.compare_gt_iff; lia ]
      end ].

(** Strings of the date-time form compare as their fields do. *)
Lemma compare_stamp t s ft fs :
  read_fields t = Some ft -> read_fields s = Some fs ->
  String.compare t s = (stamp ft ?= stamp fs).
Proof.
  unfold read_fields.
  destruct (Shape.matches datetime_regex t) eqn:Ht; [|discriminate].
  destruct (Shape.matches datetime_regex s) eqn:Hs; [|discriminate].
  take_apart Ht. take_apart Hs.
  cbn [substring]. unfold Number. cbn [decimal].
  repeat match goal with
  | E : Shape.is_digit ?c = true |- _ =>
      rewrite !E; apply digit_value_range in E
  end.
  intros E1 E2.
  assert (E1' := f_equal (fun o => match o with Some x => x | None => ft end) E1).
  assert (E2' := f_equal (fun o => match o with Some x => x | None => fs end) E2).
  cbv beta iota in E1', E2'. subst ft fs. clear E1 E2.
  cbv beta iota delta [stamp date_stamp f_year f_month f_day f_hour f_minute f_second].
  do 19 compare_step.
  cbn [String.compare]. symmetry. apply Z.compare_eq_iff. lia.
Qed.

Lemma leb_stamp t s ft fs :
  read_fields t = Some ft -> read_fields s = Some fs ->
  String.leb t s = (stamp ft <=? stamp fs).
Proof.
  intros Ht Hs. unfold String.leb, Z.leb. rewrite (compare_stamp t s ft fs Ht Hs).
  reflexivity.
Qed.

Lemma read_fields_length str f : read_fields str = Some f -> String.length str = 19%nat.
Proof.
  unfold read_fields.
  destruct (Shape.matches datetime_regex str) eqn:H; [|discriminate].
  intros _. take_apart H. reflexivity.
Qed.

Section Host.
Variable LocalTZA : Z -> bool -> Z.
Variable parse_other : string -> number.

(** The checks on the fields cannot pass unless the fields are in the
    calendar, whatever [Date] they are compared with. *)
Lemma field_checks_in_calendar f d :
  field_checks LocalTZA f d = true -> in_calendar f = true.
Proof.
  intros C.
  destruct (field_checks_well_formed LocalTZA f d C) as (Mo & H & Mi & S).
  pose proof (minute_range _ Mi) as Mi'.
  unfold field_checks in C. apply andb_true_iff in C. destruct C as [_ G].
  destruct d as [tv|]; [|discriminate G].
  apply getters_agree in G; [|lia..].
  apply in_calendar_iff. lia.
Qed.

(** On a host whose offsets stay within a day, a string with well-formed
    fields gives the [Date] of its local time. *)
Lemma new_Date_well_formed str f :
  (forall t u, Z.abs (LocalTZA t u) <= msPerDay) ->
  read_fields str = Some f -> well_formed f ->
  new_Date LocalTZA parse_other str = Num (UTC LocalTZA (local_time_of f)).
Proof.
  intros Zone R (Mo & H & Mi & S & D).
  pose proof (minute_range _ Mi) as Mi'.
  unfold new_Date, Date_parse. rewrite R.
  assert (Cal : in_calendar f = true) by (apply in_calendar_iff; lia).
  rewrite Cal.
  destruct (read_fields_range _ _ R) as (Ry & Rmo & Rd & Rh & Rmi & Rs).
  pose proof (local_time_range f Ry Mo Rd Rh Rmi Rs) as Rg.
  unfold TimeClip, UTC.
  specialize (Zone (local_time_of f) false). unfold msPerDay in Zone.
  replace (8640000000000000 <? _) with false; [reflexivity|].
  symmetry. apply Z.ltb_ge. lia.
Qed.

End Host.

End OrderFacts.

(* ================================================================== *)
(** * Further properties of the date-time utilities *)
(* ================================================================== *)

Module DateTimeProperties.
Import JS TimeFacts ValidatorFacts Notions OrderFacts.

(** X10.  [isQuarterHour] is true exactly on the multiples of 15, the
    negative ones and those from 60 on included; it is false on NaN. *)
Theorem isQuarterHour_multiples_of_15 :
  (forall m : Z, isQuarterHour (Num m) = true <-> exists k, m = 15 * k) /\
  isQuarterHour NaN = false.
Proof.
  split; [|reflexivity].
  intros m. unfold isQuarterHour, rem, strict_eq.
  change (15 =? 0) with false. cbv iota.
  rewrite Z.eqb_eq, Z.rem_divide by lia.
  split; intros [k E]; exists k; lia.
Qed.

(** X11.  A string that [isValidDateTime] accepts always gives a valid
    [Date], so [isDateTimeInRange] on three accepted strings returns and
    never throws. *)
Theorem accepted_strings_never_throw :
  forall (LocalTZA : Z -> bool -> Z) (parse_other : string -> number)
         (t s e : string),
    isValidDateTime LocalTZA parse_other t = Return true ->
    isValidDateTime LocalTZA parse_other s = Return true ->
    isValidDateTime LocalTZA parse_other e = Return true ->
    exists r, isDateTimeInRange LocalTZA parse_other t s e = Return r.
Proof.
  intros LocalTZA parse_other t s e Ht Hs He.
  assert (V : forall str,
             isValidDateTime LocalTZA parse_other str = Return true ->
             exists tv, new_Date LocalTZA parse_other str = Num tv).
  { intros str H. rewrite isValidDateTime_unfold in H.
    destruct (read_fields str) as [f|]; [|discriminate H].
    injection H as H. unfold field_checks in H.
    apply andb_true_iff in H. destruct H as [_ G].
    destruct (new_Date LocalTZA parse_other str) as [tv|]; [|discriminate G].
    exists tv. reflexivity. }
  destruct (V t Ht) as [a Ea], (V s Hs) as [b Eb], (V e He) as [c Ec].
  rewrite (isDateTimeInRange_Num _ _ t s e a b c Ea Eb Ec). eexists. reflexivity.
Qed.

(** [accepted_strings_never_throw] on a host in New York. *)
Lemma accepted_strings_never_throw_witness :
  exists r, isDateTimeInRange new_york_2024 strict_parse
              "2024-03-10T03:00:00" "2024-03-10T01:45:00" "2024-11-03T01:30:00"
            = Return r.
Proof.
  apply (accepted_strings_never_throw new_york_2024 strict_parse
           "2024-03-10T03:00:00" "2024-03-10T01:45:00" "2024-11-03T01:30:00");
    vm_compute; reflexivity.
Defined.

(** X12.  The verdict of [isValidDateTime] does not depend on what the
    engine's [Date] does with a string that names no calendar date (NaN,
    or a roll-over such as Feb 30 -> Mar 2): two engines that differ only
    there give the same answer on every string. *)
Theorem isValidDateTime_engine_independent :
  forall (LocalTZA : Z -> bool -> Z) (parse_other parse_other' : string -> number)
         (str : string),
    isValidDateTime LocalTZA parse_other str
    = isValidDateTime LocalTZA parse_other' str.
Proof.
  intros LocalTZA po po' str. rewrite !isValidDateTime_unfold.
  destruct (read_fields str) as [f|] eqn:R; [|reflexivity]. f_equal.
  destruct (in_calendar f) eqn:Cal.
  - unfold new_Date, Date_parse. rewrite R, Cal. reflexivity.
  - destruct (field_checks LocalTZA f (new_Date LocalTZA po str)) eqn:A.
    { apply field_checks_in_calendar in A. congruence. }
    destruct (field_checks LocalTZA f (new_Date LocalTZA po' str)) eqn:B.
    { apply field_checks_in_calendar in B. congruence. }
    reflexivity.
Qed.

(** X13.  Every string [isValidDateTime] accepts has exactly 19
    characters: a date without seconds, with milliseconds, with a zone
    suffix or with surrounding blanks is rejected. *)
Theorem accepted_strings_have_19_characters :
  forall (LocalTZA : Z -> bool -> Z) (parse_other : string -> number) (str : string),
    isValidDateTime LocalTZA parse_other str = Return true ->
    String.length str = 19%nat.
Proof.
  intros LocalTZA parse_other str H. rewrite isValidDateTime_unfold in H.
  destruct (read_fields str) as [f|] eqn:R; [|discriminate H].
  exact (read_fields_length str f R).
Qed.

(** [accepted_strings_have_19_characters] on a UTC host. *)
Lemma accepted_strings_have_19_characters_witness :
  String.length "2024-06-01T18:00:00" = 19%nat.
Proof.
  apply (accepted_strings_have_19_characters utc strict_parse "2024-06-01T18:00:00").
  vm_compute. reflexivity.
Defined.

(** X14.  On a host with one fixed UTC offset, and for strings that
    [isValidDateTime] accepts, the range check is the comparison of the
    strings themselves: [isDateTimeInRange(t, s, e)] returns true exactly
    when [s <= t] and [t <= e] in the order of strings. *)
Theorem isDateTimeInRange_is_string_order :
  forall (offset : Z) (parse_other : string -> number) (t s e : string),
    Z.abs offset <= msPerDay ->
    isValidDateTime (fun _ _ => offset) parse_other t = Return true ->
    isValidDateTime (fun _ _ => offset) parse_other s = Return true ->
    isValidDateTime (fun _ _ => offset) parse_other e = Return true ->
    isDateTimeInRange (fun _ _ => offset) parse_other t s e
    = Return (String.leb s t && String.leb t e).
Proof.
  intros offset po t s e B Ht Hs He.
  assert (Zone : forall (x : Z) (u : bool), Z.abs ((fun _ _ => offset) x u) <= msPerDay)
    by (intros; exact B).
  apply (isValidDateTime_true _ po _ Zone) in Ht, Hs, He.
  destruct Ht as (ft & Rt & Wt & _), Hs as (fs & Rs & Ws & _), He as (fe & Re & We & _).
  rewrite (isDateTimeInRange_Num _ _ t s e _ _ _
             (new_Date_well_formed _ po t ft Zone Rt Wt)
             (new_Date_well_formed _ po s fs Zone Rs Ws)
             (new_Date_well_formed _ po e fe Zone Re We)).
  rewrite (leb_stamp s t fs ft Rs Rt), (leb_stamp t e ft fe Rt Re).
  pose proof (local_time_order fs ft Ws Wt) as O1.
  pose proof (local_time_order ft fe Wt We) as O2.
  unfold UTC. f_equal. f_equal.
  - destruct (Z.leb_spec (stamp fs) (stamp ft)); [apply Z.leb_le|apply Z.leb_gt]; lia.
  - destruct (Z.leb_spec (stamp ft) (stamp fe)); [apply Z.leb_le|apply Z.leb_gt]; lia.
Qed.

(** [isDateTimeInRange_is_string_order] on a host at UTC+1: 18:00 is in
    the range from 18:00 to 20:00. *)
Lemma isDateTimeInRange_is_string_order_witness :
  isDateTimeInRange (fun _ _ => 3600000) strict_parse
    "2024-06-01T18:00:00" "2024-06-01T18:00:00" "2024-06-01T20:00:00"
  = Return true.
Proof.
  apply (isDateTimeInRange_is_string_order 3600000 strict_parse
           "2024-06-01T18:00:00" "2024-06-01T18:00:00" "2024-06-01T20:00:00").
  - unfold msPerDay. cbn. lia.
  - vm_compute. reflexivity.
  - vm_compute. reflexivity.
  - vm_compute. reflexivity.
Defined.

End DateTimeProperties.

(* ================================================================== *)
(** * Further properties of the reservation query *)
(* ================================================================== *)

Module QueryProperties.
Import JS ValidatorFacts Notions.

Section Host.
Variable LocalTZA : Z -> bool -> Z.
Variable parse_other : string -> number.
Variable fetch : string -> completion Response.
Variable apiUri : string.

Abbreviation isValidDateTime := (isValidDateTime LocalTZA parse_other).
Abbreviation getReservations := (getReservations LocalTZA parse_other fetch apiUri).

(** The call on an invalid boundary. *)
Lemma getReservations_invalid s e :
  isValidDateTime s = Return false \/ isValidDateTime e = Return false ->
  getReservations s e = ([], Throw (InvalidDateError (invalid_dates_message s e))).
Proof.
  intros H. unfold JS.getReservations.
  rewrite (isValidDateTime_unfold LocalTZA parse_other s) in *.
  rewrite (isValidDateTime_unfold LocalTZA parse_other e) in *.
  destruct (match read_fields s with Some _ => _ | None => _ end).
  - destruct H as [H|H]; [discriminate H|].
    injection H as ->. reflexivity.
  - reflexivity.
Qed.

(** The call on two valid boundaries, case by case. *)
Lemma getReservations_valid s e :
  isValidDateTime s = Return true -> isValidDateTime e = Return true ->
  getReservations s e =
  let url := reservations_url apiUri s e in
  match fetch url with
  | Throw err =>
      ([Fetch url; ConsoleError "Unexpected error in getReservations()" err], Throw err)
  | Return response =>
      if ok response then
        match json response with
        | Return data => ([Fetch url; ConsoleLog data], Return tt)
        | Throw err =>
            ([Fetch url; ConsoleError "Unexpected error in getReservations()" err],
             Throw err)
        end
      else
        let err := APIError
          ("Error retrieving reservations (getReservations()) - Status: "
           ++ string_of_Z (status response)) in
        ([Fetch url; ConsoleError "Unexpected error in getReservations()" err], Throw err)
  end.
Proof.
  intros Hs He. unfold JS.getReservations. rewrite Hs, He.
  cbn [io_lift io_bind io_ret negb app io_throw].
  change (apiUri ++ "/get-reservations?startDateTime=" ++ s ++ "&endDateTime=" ++ e)%string
    with (reservations_url apiUri s e).
  cbv zeta. generalize (reservations_url apiUri s e) as url. intros url.
  unfold io_catch, io_emit. cbn [io_bind io_lift app].
  destruct (fetch url) as [response|err]; cbn [io_throw app]; [|reflexivity].
  destruct (ok response); cbn [negb io_throw io_bind io_lift app]; [|reflexivity].
  destruct (json response); reflexivity.
Qed.

Lemma isValidDateTime_cases str :
  isValidDateTime str = Return true \/ isValidDateTime str = Return false.
Proof.
  rewrite isValidDateTime_unfold.
  destruct (match read_fields str with Some _ => _ | None => _ end); auto.
Qed.

End Host.

(** X15.  When either boundary is rejected by [isValidDateTime],
    [getReservations] throws [InvalidDateError], with a message that quotes
    both boundaries, and nothing has been fetched or logged. *)
Theorem getReservations_fails_fast_on_invalid_boundary :
  forall (LocalTZA : Z -> bool -> Z) (parse_other : string -> number)
         (fetch : string -> completion Response) (apiUri s e : string),
    JS.isValidDateTime LocalTZA parse_other s = Return false \/
    JS.isValidDateTime LocalTZA parse_other e = Return false ->
    JS.getReservations LocalTZA parse_other fetch apiUri s e
    = ([], Throw (InvalidDateError (invalid_dates_message s e))).
Proof. intros. apply getReservations_invalid. assumption. Qed.

(** [getReservations_fails_fast_on_invalid_boundary] with a first boundary
    that has no seconds. *)
Lemma getReservations_fails_fast_on_invalid_boundary_witness :
  JS.getReservations utc strict_parse reachable "http://127.0.0.1:5000"
    "2024-06-01T18:00" "2024-06-01T20:00:00"
  = ([], Throw (InvalidDateError
                  (invalid_dates_message "2024-06-01T18:00" "2024-06-01T20:00:00"))).
Proof.
  apply (getReservations_fails_fast_on_invalid_boundary utc strict_parse reachable).
  left. reflexivity.
Defined.

(** X16.  Every error [getReservations] ends with is its
    [InvalidDateError], its [APIError], or the very error that [fetch] or
    [response.json()] raised: the function raises no other error of its
    own, no [RangeError] in particular. *)
Theorem getReservations_raises_no_other_error :
  forall (LocalTZA : Z -> bool -> Z) (parse_other : string -> number)
         (fetch : string -> completion Response) (apiUri s e : string)
         (trace : list event) (err : error),
    JS.getReservations LocalTZA parse_other fetch apiUri s e = (trace, Throw err) ->
    err = InvalidDateError (invalid_dates_message s e) \/
    (exists response,
        fetch (reservations_url apiUri s e) = Return response /\
        ok response = false /\
        err = APIError ("Error retrieving reservations (getReservations()) - Status: "
                        ++ string_of_Z (status response))) \/
    fetch (reservations_url apiUri s e) = Throw err \/
    (exists response,
        fetch (reservations_url apiUri s e) = Return response /\
        json response = Throw err).
Proof.
  intros LocalTZA parse_other fetch apiUri s e trace err H.
  destruct (isValidDateTime_cases LocalTZA parse_other s) as [Vs|Vs].
  2:{ rewrite getReservations_invalid in H by auto. injection H as _ <-. auto. }
  destruct (isValidDateTime_cases LocalTZA parse_other e) as [Ve|Ve].
  2:{ rewrite getReservations_invalid in H by auto. injection H as _ <-. auto. }
  rewrite getReservations_valid in H by assumption. cbv zeta in H.
  destruct (fetch (reservations_url apiUri s e)) as [response|err'] eqn:F.
  - destruct (ok response) eqn:O.
    + destruct (json response) as [data|err'] eqn:J; [discriminate H|].
      injection H as _ <-. right. right. right. exists response. auto.
    + injection H as _ <-. right. left. exists response. auto.
  - injection H as _ <-. auto.
Qed.

(** [getReservations_raises_no_other_error] when the data source cannot be
    reached: the error is the one [fetch] raised. *)
Lemma getReservations_raises_no_other_error_witness :
  unreachable (reservations_url "http://127.0.0.1:5000"
                 "2024-06-01T18:00:00" "2024-06-01T20:00:00")
  = Throw (TypeError "Failed to fetch").
Proof.
  assert (E : JS.getReservations utc strict_parse unreachable
                "http://127.0.0.1:5000" "2024-06-01T18:00:00" "2024-06-01T20:00:00"
              = ([Fetch (reservations_url "http://127.0.0.1:5000"
                           "2024-06-01T18:00:00" "2024-06-01T20:00:00");
                  ConsoleError "Unexpected error in getReservations()"
                    (TypeError "Failed to fetch")],
                 Throw (TypeError "Failed to fetch")))
    by (vm_compute; reflexivity).
  destruct (getReservations_raises_no_other_error utc strict_parse unreachable
              "http://127.0.0.1:5000" "2024-06-01T18:00:00" "2024-06-01T20:00:00"
              _ (TypeError "Failed to fetch") E)
    as [H|[(r & H & _)|[H|(r & H & _)]]].
  - discriminate H.
  - discriminate H.
  - exact H.
  - discriminate H.
Defined.

(** X17.  [getReservations] completes normally exactly when both
    boundaries are valid, the response is ok and its body parses; it has
    then fetched one URL, built from [apiUri] and the two boundaries, and
    logged the data, which it does not return. *)
Theorem getReservations_completes_iff :
  forall (LocalTZA : Z -> bool -> Z) (parse_other : string -> number)
         (fetch : string -> completion Response) (apiUri s e : string)
         (trace : list event),
    JS.getReservations LocalTZA parse_other fetch apiUri s e = (trace, Return tt) <->
    JS.isValidDateTime LocalTZA parse_other s = Return true /\
    JS.isValidDateTime LocalTZA parse_other e = Return true /\
    exists response data,
      fetch (reservations_url apiUri s e) = Return response /\
      ok response = true /\ json response = Return data /\
      trace = [Fetch (reservations_url apiUri s e); ConsoleLog data].
Proof.
  intros LocalTZA parse_other fetch apiUri s e trace. split.
  - intros H.
    destruct (isValidDateTime_cases LocalTZA parse_other s) as [Vs|Vs].
    2:{ rewrite getReservations_invalid in H by auto. discriminate H. }
    destruct (isValidDateTime_cases LocalTZA parse_other e) as [Ve|Ve].
    2:{ rewrite getReservations_invalid in H by auto. discriminate H. }
    split; [exact Vs|]. split; [exact Ve|].
    rewrite getReservations_valid in H by assumption. cbv zeta in H.
    destruct (fetch (reservations_url apiUri s e)) as [response|err']; [|discriminate H].
    destruct (ok response) eqn:O; [|discriminate H].
    destruct (json response) as [data|err'] eqn:J; [|discriminate H].
    injection H as <-. exists response, data. auto.
  - intros (Vs & Ve & response & data & F & O & J & ->).
    rewrite getReservations_valid by assumption. cbv zeta. rewrite F, O, J. reflexivity.
Qed.

(** X18.  With two valid boundaries, whatever goes wrong afterwards is
    logged once with [console.error] and thrown again: the trace is the
    one request followed by that log entry. *)
Theorem getReservations_logs_and_rethrows :
  forall (LocalTZA : Z -> bool -> Z) (parse_other : string -> number)
         (fetch : string -> completion Response) (apiUri s e : string)
         (trace : list event) (err : error),
    JS.isValidDateTime LocalTZA parse_other s = Return true ->
    JS.isValidDateTime LocalTZA parse_other e = Return true ->
    JS.getReservations LocalTZA parse_other fetch apiUri s e = (trace, Throw err) ->
    trace = [Fetch (reservations_url apiUri s e);
             ConsoleError "Unexpected error in getReservations()" err].
Proof.
  intros LocalTZA parse_other fetch apiUri s e trace err Vs Ve H.
  rewrite getReservations_valid in H by assumption. cbv zeta in H.
  destruct (fetch (reservations_url apiUri s e)) as [response|err'].
  - destruct (ok response).
    + destruct (json response) as [data|err']; [discriminate H|].
      injection H as <- <-. reflexivity.
    + injection H as <- <-. reflexivity.
  - injection H as <- <-. reflexivity.
Qed.

(** [getReservations_logs_and_rethrows] when the data source cannot be
    reached. *)
Lemma getReservations_logs_and_rethrows_witness :
  fst (JS.getReservations utc strict_parse unreachable
         "http://127.0.0.1:5000" "2024-06-01T18:00:00" "2024-06-01T20:00:00")
  = [Fetch (reservations_url "http://127.0.0.1:5000"
              "2024-06-01T18:00:00" "2024-06-01T20:00:00");
     ConsoleError "Unexpected error in getReservations()" (TypeError "Failed to fetch")].
Proof.
  apply (getReservations_logs_and_rethrows utc strict_parse unreachable
           "http://127.0.0.1:5000" "2024-06-01T18:00:00" "2024-06-01T20:00:00"
           _ (TypeError "Failed to fetch")).
  - vm_compute. reflexivity.
  - vm_compute. reflexivity.
  - vm_compute. reflexivity.
Defined.

(** X19.  With two valid boundaries and a response that is not ok,
    [getReservations] throws an [APIError] whose message ends with the
    status code, without reading the body. *)
Theorem getReservations_bad_status :
  forall (LocalTZA : Z -> bool -> Z) (parse_other : string -> number)
         (fetch : string -> completion Response) (apiUri s e : string)
         (response : Response),
    JS.isValidDateTime LocalTZA parse_other s = Return true ->
    JS.isValidDateTime LocalTZA parse_other e = Return true ->
    fetch (reservations_url apiUri s e) = Return response ->
    ok response = false ->
    snd (JS.getReservations LocalTZA parse_other fetch apiUri s e)
    = Throw (APIError ("Error retrieving reservations (getReservations()) - Status: "
                       ++ string_of_Z (status response))).
Proof.
  intros LocalTZA parse_other fetch apiUri s e response Vs Ve F O.
  rewrite getReservations_valid by assumption. cbv zeta. rewrite F, O. reflexivity.
Qed.

(** [getReservations_bad_status] on a 404 whose body is no JSON. *)
Lemma getReservations_bad_status_witness :
  snd (JS.getReservations utc strict_parse
         (fun _ => Return (mkResponse false 404 (Throw (SyntaxError "Unexpected token"))))
         "http://127.0.0.1:5000" "2024-06-01T18:00:00" "2024-06-01T20:00:00")
  = Throw (APIError "Error retrieving reservations (getReservations()) - Status: 404").
Proof.
  apply (getReservations_bad_status utc strict_parse
           (fun _ => Return (mkResponse false 404 (Throw (SyntaxError "Unexpected token"))))
           "http://127.0.0.1:5000" "2024-06-01T18:00:00" "2024-06-01T20:00:00"
           (mkResponse false 404 (Throw (SyntaxError "Unexpected token")))).
  - vm_compute. reflexivity.
  - vm_compute. reflexivity.
  - reflexivity.
  - reflexivity.
Defined.

End QueryProperties.

(* ================================================================== *)
(** * Further properties of the schemas *)
(* ================================================================== *)

Module SchemaProperties.
Import Sqlite Scenarios SchemaFacts Notions.

Lemma matches_length p s :
  Shape.matches p s = true -> String.length s = List.length p.
Proof.
  revert s. induction p as [|a p IH]; intros [|c s]; cbn; try discriminate.
  - reflexivity.
  - intros H. apply andb_true_iff in H. destruct H as [_ H]. rewrite (IH s H). reflexivity.
Qed.

Lemma phone_glob_shape x :
  GLOB x "([0-9][0-9][0-9]) [0-9][0-9][0-9]-[0-9][0-9][0-9][0-9]"
  = Shape.matches phone_shape x.
Proof.
  unfold GLOB. apply glob_items_shape. vm_compute. repeat constructor.
Qed.

Lemma Original_check_unfold x :
  Original.Reservation.check x
  = GLOB (Original.Reservation.reservation_datetime x) Original.Reservation.datetime_glob
    && GLOB (Original.Reservation.date_created x) Original.Reservation.datetime_glob.
Proof. reflexivity. Qed.

Lemma Refined_check_unfold x :
  Refined.Reservation.check x
  = GLOB (Refined.Reservation.reservation_datetime x) Refined.Reservation.datetime_glob
    && GLOB (Refined.Reservation.date_created x) Refined.Reservation.datetime_glob.
Proof. reflexivity. Qed.

Lemma binding_same a b :
  (SectionInLayout.section_id a =? SectionInLayout.section_id b)
  && (SectionInLayout.layout_id a =? SectionInLayout.layout_id b) = true
  <-> binding_of b = binding_of a.
Proof.
  unfold binding_of. rewrite andb_true_iff, !Z.eqb_eq. split.
  - intros (-> & ->). reflexivity.
  - intros [= -> ->]. auto.
Qed.

Lemma slot_same a b :
  (SectionInLayout.layout_id a =? SectionInLayout.layout_id b)
  && (SectionInLayout.section_number a =? SectionInLayout.section_number b) = true
  <-> slot_of b = slot_of a.
Proof.
  unfold slot_of. rewrite andb_true_iff, !Z.eqb_eq. split.
  - intros (-> & ->). reflexivity.
  - intros [= -> ->]. auto.
Qed.

(** X20.  SectionInLayout binds a section at most once to a layout and
    gives a section number at most once within a layout: an INSERT that
    repeats either pair fails, and every successful INSERT keeps both
    pairs free of duplicates. *)
Theorem SectionInLayout_keys :
  (forall sections layouts rows r,
      In (binding_of r) (map binding_of rows) \/ In (slot_of r) (map slot_of rows) ->
      exists v, SectionInLayout.insert sections layouts rows r = Failed v) /\
  (forall sections layouts rows r rows',
      NoDup (map binding_of rows) -> NoDup (map slot_of rows) ->
      SectionInLayout.insert sections layouts rows r = Ok rows' ->
      NoDup (map binding_of rows') /\ NoDup (map slot_of rows')).
Proof.
  split.
  - intros sections layouts rows r H. unfold SectionInLayout.insert.
    destruct H as [H|H].
    + apply (has_key binding_of
               (fun r x => (SectionInLayout.section_id x =? SectionInLayout.section_id r)
                           && (SectionInLayout.layout_id x =? SectionInLayout.layout_id r))
               (fun a b => binding_same b a)) in H.
      rewrite H. eexists. reflexivity.
    + apply require_fails.
      apply (has_key slot_of
               (fun r x => (SectionInLayout.layout_id x =? SectionInLayout.layout_id r)
                           && (SectionInLayout.section_number x
                               =? SectionInLayout.section_number r))
               (fun a b => slot_same b a)) in H.
      rewrite H. eexists. reflexivity.
  - intros sections layouts rows r rows' N1 N2 H.
    unfold SectionInLayout.insert in H. rewrite !require_Ok, !negb_true_iff in H.
    destruct H as (P & U & _ & _ & [= <-]). split.
    + exact (NoDup_insert binding_of _ (fun a b => binding_same b a) rows r N1 P).
    + exact (NoDup_insert slot_of _ (fun a b => slot_same b a) rows r N2 U).
Qed.

(** [SectionInLayout_keys] on layout 1: section 1 is bound as number 1;
    binding section 2 as number 1 too is refused. *)
Lemma SectionInLayout_keys_witness :
  exists v, SectionInLayout.insert [section1; section2] [layoutA]
              [SectionInLayout.mk 1 1 1 None] (SectionInLayout.mk 2 1 1 None) = Failed v.
Proof.
  apply (proj1 SectionInLayout_keys). right. left. reflexivity.
Defined.

(** X21.  The CHECK on Customer admits exactly the phone numbers of the
    form [(XXX) XXX-XXXX] with decimal digits for X; the test of the length
    adds nothing to the GLOB. *)
Theorem Customer_check_is_the_phone_shape :
  forall r : Customer.row,
    Customer.check r = Shape.matches phone_shape (Customer.phone_number r) /\
    Customer.check r = GLOB (Customer.phone_number r)
                         "([0-9][0-9][0-9]) [0-9][0-9][0-9]-[0-9][0-9][0-9][0-9]".
Proof.
  intros r. unfold Customer.check. rewrite phone_glob_shape.
  destruct (Shape.matches phone_shape (Customer.phone_number r)) eqn:M.
  - apply matches_length in M. unfold LENGTH. rewrite M. split; reflexivity.
  - rewrite andb_false_r. split; reflexivity.
Qed.

(** X22.  When reservation ids are unique and every row of
    ReservationAtTable points at a reservation, a successful INSERT keeps
    it so, and all the rows of one reservation carry the same date-time,
    the reservation's own. *)
Theorem ReservationAtTable_carries_the_reservation_datetime :
  forall reservations tables rows r rows',
    NoDup (map Refined.Reservation.reservation_id reservations) ->
    Forall (points_at reservations) rows ->
    Refined.ReservationAtTable.insert reservations tables rows r = Ok rows' ->
    Forall (points_at reservations) rows' /\
    (forall x y, In x rows' -> In y rows' ->
       Refined.ReservationAtTable.reservation_id x
       = Refined.ReservationAtTable.reservation_id y ->
       Refined.ReservationAtTable.reservation_datetime x
       = Refined.ReservationAtTable.reservation_datetime y).
Proof.
  intros reservations tables rows r rows' N F H.
  unfold Refined.ReservationAtTable.insert in H. rewrite !require_Ok in H.
  destruct H as (_ & FK & _ & [= <-]).
  assert (P : points_at reservations r).
  { unfold has in FK. apply existsb_exists in FK. destruct FK as (x & I & E).
    apply andb_true_iff in E. destruct E as [E1 E2].
    apply Z.eqb_eq in E1. apply String.eqb_eq in E2. exists x. auto. }
  assert (F' : Forall (points_at reservations) (r :: rows)) by (constructor; assumption).
  split; [exact F'|].
  intros x y Ix Iy E.
  rewrite Forall_forall in F'.
  destruct (F' x Ix) as (rx & Irx & Ex & Dx), (F' y Iy) as (ry & Iry & Ey & Dy).
  assert (rx = ry).
  { clear - N Irx Iry Ex Ey E.
    induction reservations as [|a l IH]; [contradiction|].
    cbn [map] in N. inversion N as [|k l' Na Nl]; subst.
    destruct Irx as [->|Irx], Iry as [->|Iry].
    - reflexivity.
    - exfalso. apply Na. apply in_map_iff. exists ry. split; [congruence|exact Iry].
    - exfalso. apply Na. apply in_map_iff. exists rx. split; [congruence|exact Irx].
    - apply IH; assumption. }
  subst ry. congruence.
Qed.

(** [ReservationAtTable_carries_the_reservation_datetime] on reservation 1
    of the evening, placed on table 5. *)
Lemma ReservationAtTable_carries_the_reservation_datetime_witness :
  Forall (points_at [booking 1 1]) [at_table 1 5].
Proof.
  apply (ReservationAtTable_carries_the_reservation_datetime
           [booking 1 1] [table5] [] (at_table 1 5) [at_table 1 5]).
  - repeat constructor. intros [].
  - constructor.
  - reflexivity.
Defined.

(** X23.  In the original schema every stored reservation has the literal
    date-time [####-##-## ##:##:##], so a customer who has a reservation
    can never get a second one: every further INSERT for that customer
    fails. *)
Theorem Original_one_reservation_per_customer :
  (forall customers sets rows r rows',
      Forall (fun x => Original.Reservation.check x = true) rows ->
      Original.Reservation.insert customers sets rows r = Ok rows' ->
      Forall (fun x => Original.Reservation.check x = true) rows' /\
      Original.Reservation.reservation_datetime r = "####-##-## ##:##:##") /\
  (forall customers sets rows r r0,
      Forall (fun x => Original.Reservation.check x = true) rows ->
      In r0 rows ->
      Original.Reservation.customer_id r = Original.Reservation.customer_id r0 ->
      exists v, Original.Reservation.insert customers sets rows r = Failed v).
Proof.
  assert (L : forall x, Original.Reservation.check x = true ->
                        Original.Reservation.reservation_datetime x
                        = "####-##-## ##:##:##").
  { intros x C. rewrite Original_check_unfold in C.
    apply andb_true_iff in C. destruct C as [C _].
    apply (proj1 (Original_glob_literal _)). exact C. }
  split.
  - intros customers sets rows r rows' F H.
    apply Original_insert_Ok in H. destruct H as (C & _ & ->).
    split; [constructor; assumption|]. apply L. exact C.
  - intros customers sets rows r r0 F I E.
    unfold Original.Reservation.insert.
    destruct (Original.Reservation.check r) eqn:C; [|eexists; reflexivity].
    cbn [require]. apply require_fails.
    assert (S : has (Original.Reservation.same_slot r) rows = true).
    { apply (has_key original_slot _ Original_same_slot).
      apply in_map_iff. exists r0. split; [|exact I].
      rewrite Forall_forall in F. unfold original_slot.
      rewrite (L r C), (L r0 (F r0 I)), E. reflexivity. }
    rewrite S. eexists. reflexivity.
Qed.

(** [Original_one_reservation_per_customer] with the one reservation the
    original schema admits for customer 1. *)
Lemma Original_one_reservation_per_customer_witness :
  exists v,
    Original.Reservation.insert [ana_silva] []
      [Original.Reservation.mk 1 1 4 None "####-##-## ##:##:##" "####-##-## ##:##:##"
         (Some 0) None]
      (Original.Reservation.mk 2 1 2 None "2024-06-02 19:00:00" "2024-05-20 09:30:00"
         None None)
    = Failed v.
Proof.
  apply (proj2 Original_one_reservation_per_customer [ana_silva] []
           [Original.Reservation.mk 1 1 4 None "####-##-## ##:##:##" "####-##-## ##:##:##"
              (Some 0) None]
           _ (Original.Reservation.mk 1 1 4 None "####-##-## ##:##:##"
                "####-##-## ##:##:##" (Some 0) None)).
  - repeat constructor.
  - left. reflexivity.
  - reflexivity.
Defined.

(** X24.  In the refined schema the second UNIQUE, on (reservation_id,
    reservation_datetime), never refuses a row: an INSERT into Reservation
    that fails on a UNIQUE constraint fails because the customer already
    has a reservation at that date-time. *)
Theorem Refined_unique_failure_is_the_customer_slot :
  forall customers rows r,
    Refined.Reservation.insert customers rows r = Failed UNIQUE ->
    In (refined_slot r) (map refined_slot rows).
Proof.
  intros customers rows r. unfold Refined.Reservation.insert, require.
  destruct (Refined.Reservation.check r); [|discriminate].
  destruct (has (fun x => Refined.Reservation.reservation_id x
                          =? Refined.Reservation.reservation_id r) rows) eqn:P;
    [discriminate|]. cbn [negb].
  destruct (has (Refined.Reservation.same_slot r) rows) eqn:S; cbn [negb].
  - intros _. apply (has_key refined_slot _ Refined_same_slot). exact S.
  - destruct (has (Refined.Reservation.same_target r) rows) eqn:T; cbn [negb].
    + exfalso. unfold has in T, P. apply existsb_exists in T.
      destruct T as (x & I & E). unfold Refined.Reservation.same_target in E.
      apply andb_true_iff in E. destruct E as [E _].
      assert (existsb (fun x => Refined.Reservation.reservation_id x
                                =? Refined.Reservation.reservation_id r) rows = true).
      { apply existsb_exists. exists x. split; [exact I|].
        rewrite Z.eqb_sym. exact E. }
      congruence.
    + destruct (has _ customers); discriminate.
Qed.

(** [Refined_unique_failure_is_the_customer_slot] on a second reservation
    of customer 1 for the evening. *)
Lemma Refined_unique_failure_is_the_customer_slot_witness :
  In (refined_slot (booking 2 1)) (map refined_slot [booking 1 1]).
Proof.
  apply (Refined_unique_failure_is_the_customer_slot [ana_silva]).
  reflexivity.
Defined.

(** X25.  The table CHECK never looks at the chair counts: whether a table
    is stored does not depend on [default_chairs] and [max_chairs], so
    zero, negative, or a default above the maximum are stored as well. *)
Theorem Table_chairs_are_unconstrained :
  forall rows t default_chairs max_chairs,
    Table.insert rows (with_chairs default_chairs max_chairs t)
    = Ok (with_chairs default_chairs max_chairs t :: rows)
    <-> Table.insert rows t = Ok (t :: rows).
Proof.
  intros rows t dc mc. unfold Table.insert.
  change (Table.check (with_chairs dc mc t)) with (Table.check t).
  change (Table.table_number (with_chairs dc mc t)) with (Table.table_number t).
  rewrite !require_Ok. intuition congruence.
Qed.

(** X26.  Every successful INSERT into the table of tables keeps the table
    numbers unique and the four tested inequalities true of every stored
    row. *)
Theorem Table_insert_keeps_invariants :
  forall rows t rows',
    NoDup (map Table.table_number rows) ->
    Forall checked_geometry rows ->
    Table.insert rows t = Ok rows' ->
    NoDup (map Table.table_number rows') /\ Forall checked_geometry rows'.
Proof.
  intros rows t rows' N F H. unfold Table.insert in H.
  rewrite !require_Ok, negb_true_iff in H. destruct H as (C & P & [= <-]).
  split.
  - apply (NoDup_insert Table.table_number
             (fun r x => Table.table_number x =? Table.table_number r)); auto.
    intros a b. rewrite Z.eqb_eq. split; congruence.
  - constructor; [|exact F]. apply Table_check_spec. exact C.
Qed.

(** [Table_insert_keeps_invariants] on Table 5. *)
Lemma Table_insert_keeps_invariants_witness :
  NoDup (map Table.table_number [table5]) /\ Forall checked_geometry [table5].
Proof.
  apply (Table_insert_keeps_invariants [] table5 [table5]).
  - constructor.
  - constructor.
  - reflexivity.
Defined.

(** X27.  The Reservation table places no constraint on the party:
    whether a reservation is stored does not depend on [num_people],
    [num_highchairs] or [notes], so more highchairs than people are stored
    as well. *)
Theorem Reservation_party_is_unconstrained :
  forall customers rows r num_people num_highchairs notes,
    Refined.Reservation.insert customers rows (with_party num_people num_highchairs notes r)
    = Ok (with_party num_people num_highchairs notes r :: rows)
    <-> Refined.Reservation.insert customers rows r = Ok (r :: rows).
Proof.
  intros customers rows r n h notes. unfold Refined.Reservation.insert.
  rewrite !Refined_check_unfold.
  unfold Refined.Reservation.same_slot, Refined.Reservation.same_target, with_party.
  cbn [Refined.Reservation.reservation_id Refined.Reservation.customer_id
       Refined.Reservation.reservation_datetime Refined.Reservation.date_created].
  rewrite !require_Ok. intuition congruence.
Qed.

End SchemaProperties.

(* ================================================================== *)
(** * The date-times of the GUI and the date-times of the schemas *)
(* ================================================================== *)

Module FormatProperties.
Import JS ValidatorFacts Sqlite SchemaFacts.

(** X28.  No string passes both checks: a date-time that
    [isValidDateTime] accepts (with its [T] between date and time) is
    refused by the date-time CHECK of the refined schema, which wants a
    blank there, and by that of the original schema. *)
Theorem accepted_datetime_is_refused_by_both_schemas :
  forall (LocalTZA : Z -> bool -> Z) (parse_other : string -> number) (str : string),
    isValidDateTime LocalTZA parse_other str = Return true ->
    GLOB str Refined.Reservation.datetime_glob = false /\
    GLOB str Original.Reservation.datetime_glob = false.
Proof.
  intros LocalTZA parse_other str H. rewrite isValidDateTime_unfold in H.
  destruct (read_fields str) as [f|] eqn:R; [|discriminate H]. clear H.
  assert (M : Shape.matches datetime_regex str = true)
    by (apply read_fields_regex; exists f; exact R).
  clear R. split.
  - rewrite Refined_glob_shape.
    destruct (Shape.matches iso_shape str) eqn:E; [exfalso|reflexivity].
    take_apart M.
    change iso_shape with
      [Shape.digit; Shape.digit; Shape.digit; Shape.digit; Shape.lit "-";
       Shape.digit; Shape.digit; Shape.lit "-"; Shape.digit; Shape.digit;
       Shape.lit " "; Shape.digit; Shape.digit; Shape.lit ":";
       Shape.digit; Shape.digit; Shape.lit ":"; Shape.digit; Shape.digit] in E.
    do 11 (rewrite matches_cons in E; apply andb_true_iff in E;
           let A := fresh "A" in destruct E as [A E]).
    match goal with
    | A : Shape.atom_match (Shape.lit " ") _ = true |- _ => discriminate A
    end.
  - destruct (GLOB str Original.Reservation.datetime_glob) eqn:G; [|reflexivity].
    apply Original_glob_literal in G. subst str. vm_compute in M. discriminate M.
Qed.

(** [accepted_datetime_is_refused_by_both_schemas] on a date-time the
    validator accepts at a UTC host. *)
Lemma accepted_datetime_is_refused_by_both_schemas_witness :
  GLOB "2024-06-01T18:00:00" Refined.Reservation.datetime_glob = false /\
  GLOB "2024-06-01T18:00:00" Original.Reservation.datetime_glob = false.
Proof.
  apply (accepted_datetime_is_refused_by_both_schemas utc strict_parse).
  vm_compute. reflexivity.
Defined.

End FormatProperties.
